(** * PDFCon: a shallow embedding of [app.py]

    The program turns the positioned words of a PDF statement into a table.
    This development embeds the three functions of [app.py] that carry the
    logic, [clean_dataframe], [extract_page_data_with_pdfplumber] and
    [process_pdf], and the Streamlit application [main] that calls them, and
    proves properties of them.

    Modelling choices.
    - Coordinates ([x0], [top], the column positions) are Python floats (or
      [Decimal]s in older pdfplumber versions).  The code only compares them
      and rounds them to a multiple of ten; both operations are exact on the
      value the number denotes, so a coordinate is modelled by the rational
      it denotes ([Q]).  NaN and the infinities are outside the model.
    - A [rows] dictionary is a [gmap] keyed by the row key; the code only
      looks keys up and sorts them, so insertion order is not observable.
    - A pandas [DataFrame] is its column labels and its rows of cells; a
      cell is a string or the missing value (NaN / None).
    - Exceptions are explicit ([outcome]); what Streamlit displays is an
      explicit log of messages ([st_msg]).
    - pdfplumber, Camelot and the spreadsheet writer are collaborators whose
      answers are given by an environment record ([pdf_env]); what [main]
      meets beyond them is given by [main_env], the values of its widgets by
      [ui], and the working directory by the set of its file names. *)

From Stdlib Require Import QArith Ascii String.
From stdpp Require Import base option list gmap strings sorting.

Local Open Scope Z_scope.

(** ** Exceptions and the Streamlit log *)

Inductive exn : Type :=
  | IndexError      (* a list index out of range *)
  | ExternalError.  (* raised by pdfplumber, Camelot or the Excel writer *)

Inductive outcome (A : Type) : Type :=
  | Ok (a : A)
  | Raised (e : exn).
Arguments Ok {A} a.
Arguments Raised {A} e.

Global Instance outcome_ret : MRet outcome := λ A a, Ok a.
Global Instance outcome_bind : MBind outcome := λ A B k m,
  match m with
  | Ok a => k a
  | Raised e => Raised e
  end.

(** The calls to [st.info], [st.success], [st.warning] and [st.error], in
    the order [app.py] makes them.  Page numbers are the one-based numbers
    the messages show. *)
Inductive st_msg : Type :=
  | InfoTotalPages (total : Z)
  | InfoProcessingPages (shown : list Z)
  | InfoAttemptPdfplumber (page_no : Z)
  | SuccessPdfplumber (page_no : Z)
  | InfoAttemptCamelot (page_no : Z)
  | SuccessCamelot (page_no : Z)
  | ErrorPdfplumber (e : exn)
  | ErrorPage (page_no : Z) (e : exn)
  | WarningNoData
  | ErrorFatal (e : exn).

(** ** Text *)

(** [" ".join(cell)] *)
Fixpoint join_space (cell : list string) : string :=
  match cell with
  | [] => EmptyString
  | [s] => s
  | s :: rest => s +:+ " " +:+ join_space rest
  end.

(** The characters [str.strip()] removes, within ASCII: tab, line feed,
    vertical tab, form feed, carriage return, the four separators
    0x1c-0x1f and the space. *)
Definition is_py_space (a : ascii) : bool :=
  let n := nat_of_ascii a in
  (((9 <=? n) && (n <=? 13)) || ((28 <=? n) && (n <=? 32)))%nat.

Fixpoint lstrip (s : string) : string :=
  match s with
  | String a s' => if is_py_space a then lstrip s' else s
  | EmptyString => EmptyString
  end.

Fixpoint rstrip (s : string) : string :=
  match s with
  | String a s' =>
      match rstrip s' with
      | EmptyString => if is_py_space a then EmptyString else String a EmptyString
      | t => String a t
      end
  | EmptyString => EmptyString
  end.

Definition strip (s : string) : string := rstrip (lstrip s).

(** ** DataFrames *)

Inductive cell : Type :=
  | NaN                 (* a missing value *)
  | Str (s : string).

Global Instance cell_eq_dec : EqDecision cell.
Proof. solve_decision. Defined.

Record DataFrame : Type := mkDataFrame {
  columns : list string;
  data : list (list cell)
}.

Global Instance DataFrame_eq_dec : EqDecision DataFrame.
Proof. solve_decision. Defined.

(** [df.empty]: one of the two axes has length zero. *)
Definition df_empty (df : DataFrame) : bool :=
  match columns df, data df with
  | [], _ | _, [] => true
  | _, _ => false
  end.

(** [pd.isna] on a cell, and on a whole row as [dropna(how='all')] tests it. *)
Definition isna (c : cell) : bool :=
  match c with NaN => true | Str _ => false end.

Definition all_na (row : list cell) : bool := forallb isna row.

(** One entry of [df.iloc[:, 0] == h0]: the first cell of the row compared
    with the header name.  A missing value equals no string. *)
Definition first_is (h0 : string) (row : list cell) : bool :=
  match row with
  | Str s :: _ => bool_decide (s = h0)
  | _ => false
  end.

(** [df.dropna(how='all')]; [reset_index(drop=True)] renumbers the rows,
    which a list of rows does by itself. *)
Definition dropna_all (df : DataFrame) : DataFrame :=
  mkDataFrame (columns df) (filter (λ r, ¬ all_na r) (data df)).

(** [clean_dataframe(df, expected_headers)].  [None] is Python's [None].
    [expected_headers[0]] raises [IndexError] on an empty header list; it is
    evaluated only after the emptiness test. *)
Definition clean_dataframe (df : option DataFrame) (expected_headers : list string)
  : outcome DataFrame :=
  match df with
  | None => Ok (mkDataFrame expected_headers [])
  | Some df =>
      if df_empty df then Ok (mkDataFrame expected_headers [])
      else
        match expected_headers with
        | [] => Raised IndexError
        | h0 :: _ =>
            let df_cleaned :=
              mkDataFrame (columns df) (filter (λ r, ¬ first_is h0 r) (data df)) in
            Ok (dropna_all df_cleaned)
        end
  end.

(** ** Words, row keys and columns *)

(** One entry of [page.extract_words()]: the keys the code reads. *)
Record word : Type := mkWord {
  text : string;
  x0 : Q;
  top : Q
}.

(** The integer nearest to [q], a tie going to the even neighbour. *)
Definition round_half_even (q : Q) : Z :=
  let n := Qnum q in
  let d := Z.pos (Qden q) in
  let f := n / d in
  match 2 * (n mod d) ?= d with
  | Lt => f
  | Gt => f + 1
  | Eq => if Z.even f then f else f + 1
  end.

(** [round(y0, -1)]: the multiple of ten nearest to [y0], ties to the even
    multiple.  The result is a float with an integer value; it is modelled
    by that integer, which is also how the dictionary compares keys. *)
Definition row_key (y0 : Q) : Z := 10 * round_half_even (y0 / 10).

Definition Qltb (x y : Q) : bool := Qnum x * QDen y <? Qnum y * QDen x.

(** [zip(column_positions, column_positions[1:] + [None])] *)
Definition column_intervals (column_positions : list Q) : list (Q * option Q) :=
  zip column_positions ((Some <$> tail column_positions) ++ [None]).

(** [(x0 >= start) and (end is None or x0 < end)] *)
Definition in_interval (x : Q) (se : Q * option Q) : bool :=
  Qle_bool se.1 x && match se.2 with None => true | Some e => Qltb x e end.

(** The index at which the inner [for] loop reaches its [break], if any. *)
Definition find_column (column_positions : list Q) (x : Q) : option nat :=
  fst <$> list_find (λ se, in_interval x se) (column_intervals column_positions).

(** The body of the loop over the words of a page, on the dictionary [rows].
    [rows[row_key][idx]] raises [IndexError] when the row has fewer than
    [idx + 1] cells. *)
Definition place_word (n_headers : nat) (column_positions : list Q)
    (rows : gmap Z (list (list string))) (w : word)
  : outcome (gmap Z (list (list string))) :=
  let row_key := row_key (top w) in
  let rows :=
    match rows !! row_key with
    | None => <[row_key := replicate n_headers []]> rows
    | Some _ => rows
    end in
  match find_column column_positions (x0 w) with
  | None => Ok rows
  | Some idx =>
      let cells : list (list string) := rows !!! row_key in
      match cells !! idx with
      | None => Raised IndexError
      | Some c => Ok (<[row_key := <[idx := c ++ [text w]]> cells]> rows)
      end
  end.

Fixpoint place_words (n_headers : nat) (column_positions : list Q)
    (rows : gmap Z (list (list string))) (words : list word)
  : outcome (gmap Z (list (list string))) :=
  match words with
  | [] => Ok rows
  | w :: words' =>
      rows' ← place_word n_headers column_positions rows w;
      place_words n_headers column_positions rows' words'
  end.

(** [sorted(rows.keys())] *)
Definition sorted_keys (rows : gmap Z (list (list string))) : list Z :=
  merge_sort Z.le (elements (dom rows)).

(** The list comprehension that builds [data_rows]. *)
Definition data_rows (rows : gmap Z (list (list string))) : list (list string) :=
  (λ row_key, (λ cell, strip (join_space cell)) <$> (rows !!! row_key : list (list string)))
    <$> sorted_keys rows.

Arguments clean_dataframe : simpl never.

(** [pd.DataFrame(data_rows, columns=expected_headers)] *)
Definition frame_of_rows (expected_headers : list string)
    (rows : list (list string)) : DataFrame :=
  mkDataFrame expected_headers ((λ row : list string, Str <$> row) <$> rows).

(** The [try] block of [extract_page_data_with_pdfplumber].  The page is
    given by what its [extract_words()] answers. *)
Definition extract_try (page : outcome (list word)) (column_positions : list Q)
    (expected_headers : list string) : outcome (option DataFrame) :=
  words ← page;
  rows ← place_words (length expected_headers) column_positions ∅ words;
  match data_rows rows with
  | [] => Ok None
  | rs => df ← clean_dataframe (Some (frame_of_rows expected_headers rs))
                                expected_headers;
          Ok (Some df)
  end.

(** [extract_page_data_with_pdfplumber]: the result and the messages shown. *)
Definition extract_page_data_with_pdfplumber (page : outcome (list word))
    (column_positions : list Q) (expected_headers : list string)
  : option DataFrame * list st_msg :=
  match extract_try page column_positions expected_headers with
  | Ok r => (r, [])
  | Raised e => (None, [ErrorPdfplumber e])
  end.

(** ** The pipeline *)

(** The [pages] argument: the string ['all'] or a list of page numbers. *)
Inductive pages_arg : Type :=
  | PagesAll
  | PagesList (l : list Z).

(** The collaborators.  [pdf_open] is [pdfplumber.open(pdf_path, password)]:
    the pages of the document, each given by what its [extract_words()]
    answers.  [camelot_read_pdf n] is the list of [table.df] that
    [camelot.read_pdf(pdf_path, pages=str(n), ...)] yields.  [to_excel] is
    the spreadsheet writer. *)
Record pdf_env : Type := mkEnv {
  pdf_open : outcome (list (outcome (list word)));
  camelot_read_pdf : Z → outcome (list DataFrame);
  to_excel : DataFrame → outcome ()
}.

Definition expected_headers : list string :=
  [ "Receipt No."; "Completion Time"; "Details"; "Transaction Status";
    "Paid In"; "Withdrawn"; "Balance" ]%string.

(** The literals denote the doubles nearest to these decimals. *)
Definition column_positions : list Q :=
  [ 375 # 10; 85 # 1; 194899 # 1000; 350 # 1; 4184 # 10; 4652 # 10;
    52134 # 100 ]%Q.

(** [range(a, b)] *)
Definition py_range (a b : Z) : list Z := seqZ a (b - a).

(** The page selection of [process_pdf]. *)
Definition pages_to_process (pages : pages_arg) (start_page end_page : option Z)
    (total_pages : Z) : list Z :=
  match pages with
  | PagesAll =>
      match start_page, end_page with
      | Some s, Some e => py_range (Z.max (s - 1) 0) (Z.min e total_pages)
      | _, _ => py_range 0 total_pages
      end
  | PagesList l => (λ p, p - 1) <$> filter (λ p, 0 < p ≤ total_pages) l
  end.

(** [l[i]], negative indices counting from the end. *)
Definition py_index {A} (l : list A) (i : Z) : outcome A :=
  let n := Z.of_nat (length l) in
  let j := if bool_decide (i < 0) then i + n else i in
  if bool_decide (0 ≤ j) then
    match l !! Z.to_nat j with
    | Some a => Ok a
    | None => Raised IndexError
    end
  else Raised IndexError.

(** [pd.concat(all_data, ignore_index=True)] where the frames share their
    column labels, which is the case for every frame [process_pdf]
    accumulates: the rows are stacked. *)
Definition pd_concat (all_data : list DataFrame) : DataFrame :=
  mkDataFrame (from_option columns [] (head all_data)) (concat (data <$> all_data)).

(** The state the page loop updates: [all_data] and the messages shown. *)
Definition pstate : Type := list DataFrame * list st_msg.

(** The loop over the Camelot tables of one page.  An exception leaves the
    loop with the state as it stands. *)
Fixpoint camelot_tables (headers : list string) (page_no : Z)
    (tables : list DataFrame) (st : pstate) : pstate * outcome () :=
  match tables with
  | [] => (st, Ok ())
  | df_camelot :: tables' =>
      if bool_decide (length (columns df_camelot) = length headers) then
        match clean_dataframe (Some (mkDataFrame headers (data df_camelot))) headers with
        | Raised e => (st, Raised e)
        | Ok df =>
            let st' :=
              if df_empty df then st
              else (st.1 ++ [df], st.2 ++ [SuccessCamelot page_no]) in
            camelot_tables headers page_no tables' st'
        end
      else camelot_tables headers page_no tables' st
  end.

(** The [else] branch of the page loop: the Camelot fallback. *)
Definition camelot_fallback (env : pdf_env) (headers : list string)
    (page_num : Z) (st : pstate) : pstate :=
  let st := (st.1, st.2 ++ [InfoAttemptCamelot (page_num + 1)]) in
  match camelot_read_pdf env (page_num + 1) with
  | Raised e => (st.1, st.2 ++ [ErrorPage (page_num + 1) e])
  | Ok tables =>
      match camelot_tables headers (page_num + 1) tables st with
      | (st', Ok _) => st'
      | (st', Raised e) => (st'.1, st'.2 ++ [ErrorPage (page_num + 1) e])
      end
  end.

(** One iteration of the page loop, with its [try] / [except]. *)
Definition process_page (env : pdf_env) (doc : list (outcome (list word)))
    (positions : list Q) (headers : list string)
    (st : pstate) (page_num : Z) : pstate :=
  match py_index doc page_num with
  | Raised e => (st.1, st.2 ++ [ErrorPage (page_num + 1) e])
  | Ok page =>
      let st := (st.1, st.2 ++ [InfoAttemptPdfplumber (page_num + 1)]) in
      let '(df_pdfplumber, shown) :=
        extract_page_data_with_pdfplumber page positions headers in
      let st := (st.1, st.2 ++ shown) in
      match df_pdfplumber with
      | Some df =>
          if df_empty df then camelot_fallback env headers page_num st
          else (st.1 ++ [df], st.2 ++ [SuccessPdfplumber (page_num + 1)])
      | None => camelot_fallback env headers page_num st
      end
  end.

Definition process_pages (env : pdf_env) (doc : list (outcome (list word)))
    (positions : list Q) (headers : list string)
    (st : pstate) (pages : list Z) : pstate :=
  foldl (process_page env doc positions headers) st pages.

(** The page loop of [process_pdf] from its initial state: [all_data] empty
    and the two messages shown before the loop. *)
Definition accumulate (env : pdf_env) (doc : list (outcome (list word)))
    (pages : pages_arg) (start_page end_page : option Z) : pstate :=
  let total_pages := Z.of_nat (length doc) in
  let selected := pages_to_process pages start_page end_page total_pages in
  process_pages env doc column_positions expected_headers
    ([], [InfoTotalPages total_pages;
          InfoProcessingPages ((λ p, p + 1) <$> selected)])
    selected.

(** [process_pdf]: the value returned and the messages shown. *)
Definition process_pdf (env : pdf_env) (pages : pages_arg)
    (start_page end_page : option Z) : option DataFrame * list st_msg :=
  match pdf_open env with
  | Raised e => (None, [ErrorFatal e])
  | Ok doc =>
      let '(all_data, shown) := accumulate env doc pages start_page end_page in
      match all_data with
      | [] => (None, shown ++ [WarningNoData])
      | _ =>
          let final :=
            final_df ← clean_dataframe (Some (pd_concat all_data)) expected_headers;
            _ ← to_excel env final_df;
            Ok final_df in
          match final with
          | Ok final_df => (Some final_df, shown)
          | Raised e => (None, shown ++ [ErrorFatal e])
          end
      end
  end.

(** The zero-based indices of the pages the loop entered, read off the
    messages: each iteration that obtains its page announces it. *)
Definition attempted (shown : list st_msg) : list Z :=
  omap (λ m, match m with
             | InfoAttemptPdfplumber page_no => Some (page_no - 1)
             | _ => None
             end) shown.

(** ** The grid a page should give

    The dictionary the scan of a page leaves is described by these
    functions of the words alone. *)

(** The row keys of the words of a page. *)
Definition keys (words : list word) : list Z :=
  (λ w, row_key (top w)) <$> words.

(** The texts, in the order of the words, of the words with row key [rk]
    that the scan assigns to column [i]. *)
Definition bucket (cp : list Q) (words : list word) (rk : Z) (i : nat)
  : list string :=
  text <$> filter (λ w, row_key (top w) = rk ∧ find_column cp (x0 w) = Some i) words.

(** The row the words of a page give to the key [rk], if any. *)
Definition grid_row (n_headers : nat) (cp : list Q) (words : list word) (rk : Z)
  : option (list (list string)) :=
  if decide (rk ∈ keys words)
  then Some (bucket cp words rk <$> seq 0 n_headers)
  else None.

(** A row whose seven values are all the empty string. *)
Definition blank_row : list cell := replicate 7 (Str EmptyString).

(** A Camelot table the page loop takes nothing from: it has another number
    of columns than the headers, or nothing is left of it after cleaning. *)
Definition yields_nothing (headers : list string) (t : DataFrame) : Prop :=
  length (columns t) ≠ length headers
  ∨ ∃ out, clean_dataframe (Some (mkDataFrame headers (data t))) headers = Ok out
           ∧ df_empty out = true.

(** ** What the page loop takes from tables *)

(** The rows [clean_dataframe] leaves of a table with rows and columns. *)
Definition kept_rows (headers : list string) (rows : list (list cell))
  : list (list cell) :=
  match headers with
  | [] => []
  | h0 :: _ => filter (λ r, ¬ all_na r) (filter (λ r, ¬ first_is h0 r) rows)
  end.

(** The tables the page loop takes from the Camelot tables of a page: of
    each table with as many columns as there are headers, the rows that the
    cleaning leaves, under the headers, when there are such rows. *)
Definition accepted_tables (headers : list string) (tables : list DataFrame)
  : list DataFrame :=
  omap (λ t, if decide (length (columns t) = length headers
                        ∧ kept_rows headers (data t) ≠ [])
             then Some (mkDataFrame headers (kept_rows headers (data t)))
             else None) tables.

(** A table as the page loop accumulates it: under the headers, with rows,
    none of them a header row or a row of missing values only. *)
Definition settled (headers : list string) (d : DataFrame) : Prop :=
  columns d = headers
  ∧ data d ≠ []
  ∧ Forall (λ r, ¬ all_na r ∧ ∀ h0, head headers = Some h0 → ¬ first_is h0 r) (data d).

(** The messages the page loop shows. *)
Definition loop_message (m : st_msg) : Prop :=
  match m with
  | InfoAttemptPdfplumber _ | SuccessPdfplumber _ | InfoAttemptCamelot _
  | SuccessCamelot _ | ErrorPdfplumber _ | ErrorPage _ _ => True
  | InfoTotalPages _ | InfoProcessingPages _ | WarningNoData | ErrorFatal _ => False
  end.

(** ** The Streamlit application *)

(** What the widgets of one run of [main] return.  The password entered is
    handed on to pdfplumber and Camelot only, whose answers [pdf_env] gives.
    [st.number_input] keeps [start_page_input] at 1 or more and
    [end_page_input] at [start_page_input] or more. *)
Inductive page_option : Type :=
  | Range
  | SpecificPages.

Record ui : Type := mkUi {
  uploaded_file : option string;   (* [None]: nothing uploaded *)
  process_all_pages : bool;        (* the checkbox *)
  page_option_chosen : page_option;  (* the radio button *)
  start_page_input : Z;
  end_page_input : Z;
  specific_pages : string;         (* the text input *)
  convert_clicked : bool           (* the button *)
}.

(** What [main] meets beyond [pdf_env]: Python's [int] on a string ([None]
    is a [ValueError]), the write of the upload to [temp.pdf],
    [pd.read_excel] on the spreadsheet [process_pdf] wrote (given by the
    table written), the writer of the filtered table, and whether a write
    that raises leaves its file behind.  Reading [clean.xlsx] back for the
    download and removing the files at the end are taken to succeed. *)
Record main_env : Type := mkMainEnv {
  py_int : string → option Z;
  write_temp : outcome ();
  read_excel : DataFrame → outcome DataFrame;
  filtered_to_excel : DataFrame → outcome ();
  failed_write_leaves_file : bool
}.

(** What [main] shows: its own messages and widgets, and the messages of
    [process_pdf]. *)
Inductive main_msg : Type :=
  | Title
  | SuccessUploaded
  | ErrorInvalidPages              (* "Please enter valid page numbers." *)
  | FromProcess (m : st_msg)
  | ErrorFailed                    (* "Failed to process PDF." *)
  | WritePreviewCaption
  | WritePreview (df : DataFrame)
  | DownloadButton (df : DataFrame).

(** How a run of [main] ends: it returns, or an exception leaves it. *)
Inductive main_end : Type :=
  | Returned
  | Uncaught (e : exn)
  | UncaughtKeyError.

(** [s.split(",")] *)
Fixpoint split_comma (s : string) : list string :=
  match s with
  | EmptyString => [EmptyString]
  | String a s' =>
      if Ascii.eqb a ","
      then EmptyString :: split_comma s'
      else match split_comma s' with
           | t :: ts => String a t :: ts
           | [] => [String a EmptyString]
           end
  end.

(** [[int(p.strip()) for p in specific_pages.split(",")]]; [None] when an
    [int] raises [ValueError]. *)
Definition parse_pages (menv : main_env) (specific_pages : string)
  : option (list Z) :=
  mapM (λ p, py_int menv (strip p)) (split_comma specific_pages).

(** The values of [pages], [start_page] and [end_page] after the widgets;
    [None] when the page list is invalid and [main] returns. *)
Definition page_selection (menv : main_env) (u : ui)
  : option (pages_arg * option Z * option Z) :=
  if process_all_pages u then Some (PagesAll, None, None)
  else
    match page_option_chosen u with
    | Range => Some (PagesAll, Some (start_page_input u), Some (end_page_input u))
    | SpecificPages =>
        match specific_pages u with
        | EmptyString => Some (PagesAll, None, None)
        | text =>
            match parse_pages menv text with
            | Some l => Some (PagesList l, None, None)
            | None => None
            end
        end
    end.

(** The truth value of [start_page and end_page]. *)
Definition both_truthy (start_page end_page : option Z) : bool :=
  match start_page, end_page with
  | Some s, Some e => negb (s =? 0) && negb (e =? 0)
  | _, _ => false
  end.

(** The call of [process_pdf] that [main] makes. *)
Definition call_process_pdf (env : pdf_env) (u : ui) (pages : pages_arg)
    (start_page end_page : option Z) : option DataFrame * list st_msg :=
  if process_all_pages u then process_pdf env PagesAll None None
  else if both_truthy start_page end_page
       then process_pdf env PagesAll start_page end_page
       else process_pdf env pages None None.

(** The files in the working directory after a call of [process_pdf]:
    [converted_data.xlsx] is there when the writer succeeded, and when it
    was called, raised and leaves its file behind.  With the document open,
    the run ends on the fatal error message exactly when the code after the
    page loop raised. *)
Definition files_after_process (env : pdf_env) (menv : main_env)
    (run : option DataFrame * list st_msg) (files : gset string) : gset string :=
  match run.1 with
  | Some _ => {["converted_data.xlsx"%string]} ∪ files
  | None =>
      match last run.2 with
      | Some (ErrorFatal _) =>
          match pdf_open env with
          | Ok _ => if failed_write_leaves_file menv
                    then {["converted_data.xlsx"%string]} ∪ files
                    else files
          | Raised _ => files
          end
      | _ => files
      end
  end.

(** [df['Balance']]: the position of the column labelled [Balance]. *)
Definition balance_column (df : DataFrame) : option nat :=
  fst <$> list_find (λ c, c = "Balance"%string) (columns df).

(** One entry of [df['Balance'].notna()]: the row has a value in column
    [j]. *)
Definition notna_at (j : nat) (row : list cell) : bool :=
  match row !! j with
  | Some c => negb (isna c)
  | None => false
  end.

(** [df[df['Balance'].notna()]] *)
Definition filter_balance (j : nat) (df : DataFrame) : DataFrame :=
  mkDataFrame (columns df) (filter (λ r, notna_at j r) (data df)).

(** [df.head()]: the first five rows. *)
Definition df_head (df : DataFrame) : DataFrame :=
  mkDataFrame (columns df) (take 5 (data df)).

(** The three files the last loop of [main] removes. *)
Definition temporary_files : gset string :=
  {["temp.pdf"; "converted_data.xlsx"; "clean.xlsx"]}%string.

(** The outcome of a run of [main]. *)
Record main_run : Type := mkRun {
  displayed : list main_msg;
  files_left : gset string;
  ended : main_end
}.

(** [main], from the widgets' values and the files in the working
    directory. *)
Definition main (env : pdf_env) (menv : main_env) (u : ui) (files : gset string)
  : main_run :=
  match uploaded_file u with
  | None => mkRun [Title] files Returned
  | Some _ =>
      match write_temp menv with
      | Raised e =>
          mkRun [Title; SuccessUploaded]
            (if failed_write_leaves_file menv
             then {["temp.pdf"%string]} ∪ files
             else files)
            (Uncaught e)
      | Ok _ =>
          let files := {["temp.pdf"%string]} ∪ files in
          match page_selection menv u with
          | None => mkRun [Title; SuccessUploaded; ErrorInvalidPages] files Returned
          | Some (pages, start_page, end_page) =>
              if negb (convert_clicked u)
              then mkRun [Title; SuccessUploaded] files Returned
              else
                let run := call_process_pdf env u pages start_page end_page in
                let shown := [Title; SuccessUploaded] ++ (FromProcess <$> run.2) in
                let files := files_after_process env menv run files in
                match run.1 with
                | None => mkRun (shown ++ [ErrorFailed]) files Returned
                | Some written =>
                    match read_excel menv written with
                    | Raised e => mkRun shown files (Uncaught e)
                    | Ok df =>
                        match balance_column df with
                        | None => mkRun shown files UncaughtKeyError
                        | Some j =>
                            let df_filtered := filter_balance j df in
                            match filtered_to_excel menv df_filtered with
                            | Raised e =>
                                mkRun shown
                                  (if failed_write_leaves_file menv
                                   then {["clean.xlsx"%string]} ∪ files
                                   else files)
                                  (Uncaught e)
                            | Ok _ =>
                                mkRun
                                  (shown ++ [WritePreviewCaption;
                                             WritePreview (df_head df_filtered);
                                             DownloadButton df_filtered])
                                  (({["clean.xlsx"%string]} ∪ files)
                                     ∖ temporary_files)
                                  Returned
                            end
                        end
                    end
                end
          end
      end
  end.

(** The messages of [process_pdf] among what [main] shows. *)
Definition process_messages (shown : list main_msg) : list st_msg :=
  omap (λ m, match m with FromProcess m' => Some m' | _ => None end) shown.

(** * Properties *)

(** ** The embedding on small inputs *)

Example strip_join :
  strip (join_space [" Pay"; "Bill  "; EmptyString])%string = "Pay Bill"%string.
Proof. reflexivity. Qed.

(** [round(105, -1)] is 100 and [round(115, -1)] is 120: ties go to the
    even multiple; [round(104.9, -1)] is 100 and [round(-15, -1)] is -20. *)
Example row_key_ties :
  row_key <$> [105 # 1; 115 # 1; 1049 # 10; -15 # 1]%Q = [100; 120; 100; -20].
Proof. reflexivity. Qed.

(** Two words on one line, positions 0, 10 and 20: one row, the third cell
    empty.  When the first text is the first header the row is removed and
    the result is a table without rows. *)
Example one_line_two_words :
  let words := [mkWord "H1" (1 # 1) (0 # 1); mkWord "H2" (11 # 1) (0 # 1)] in
  extract_page_data_with_pdfplumber (Ok words) [0 # 1; 10 # 1; 20 # 1]%Q
    ["A"; "B"; "C"]%string
  = (Some (mkDataFrame ["A"; "B"; "C"]%string
             [[Str "H1"; Str "H2"; Str EmptyString]]), [])
  ∧ extract_page_data_with_pdfplumber (Ok words) [0 # 1; 10 # 1; 20 # 1]%Q
      ["H1"; "B"; "C"]%string
    = (Some (mkDataFrame ["H1"; "B"; "C"]%string []), []).
Proof. split; by vm_compute. Qed.

(** More column positions than headers: the scan indexes a cell that the
    row does not have, and the extraction reports the exception. *)
Example more_positions_than_headers :
  extract_page_data_with_pdfplumber (Ok [mkWord "x" (25 # 1) (0 # 1)])
    [0 # 1; 10 # 1; 20 # 1]%Q ["A"; "B"]%string
  = (None, [ErrorPdfplumber IndexError]).
Proof. by vm_compute. Qed.

(** ** Page selection *)

Lemma py_range_lookup (a b : Z) (k : nat) (x : Z) :
  py_range a b !! k = Some x ↔ x = a + Z.of_nat k ∧ x < b.
Proof.
  unfold py_range. rewrite lookup_seqZ. lia.
Qed.

Lemma py_range_elem (a b x : Z) : x ∈ py_range a b ↔ a ≤ x < b.
Proof.
  unfold py_range. rewrite elem_of_seqZ. lia.
Qed.

Lemma py_range_empty (a b : Z) : b ≤ a → py_range a b = [].
Proof.
  intros Hba. unfold py_range.
  apply length_zero_iff_nil. rewrite length_seqZ. lia.
Qed.

Lemma pages_to_process_in_range pages s e (T : Z) (i : Z) :
  i ∈ pages_to_process pages s e T → 0 ≤ i < T.
Proof.
  destruct pages as [|l]; simpl.
  - destruct s as [s|], e as [e|]; rewrite py_range_elem; lia.
  - rewrite list_elem_of_fmap. intros (p & -> & Hp).
    apply list_elem_of_filter in Hp as [Hp _]. lia.
Qed.

(** ** The pages the loop enters *)

Lemma attempted_app (a b : list st_msg) :
  attempted (a ++ b) = attempted a ++ attempted b.
Proof. apply omap_app. Qed.

Lemma camelot_tables_shown headers page_no tables st st' r :
  camelot_tables headers page_no tables st = (st', r) →
  ∃ more, st'.2 = st.2 ++ more ∧ attempted more = [].
Proof.
  revert st. induction tables as [|t tables IH]; intros st Hrun; simpl in Hrun.
  - injection Hrun as <- _. exists []. by rewrite app_nil_r.
  - case_bool_decide; [|by eapply IH].
    destruct (clean_dataframe _ _) as [df|e].
    + destruct (df_empty df); [by eapply IH|].
      apply IH in Hrun as (more & -> & Hmore). simpl.
      exists (SuccessCamelot page_no :: more). by rewrite <- app_assoc.
    + injection Hrun as <- _. exists []. by rewrite app_nil_r.
Qed.

Lemma camelot_fallback_shown env headers page_num st :
  ∃ more, (camelot_fallback env headers page_num st).2 = st.2 ++ more
          ∧ attempted more = [].
Proof.
  unfold camelot_fallback.
  destruct (camelot_read_pdf env (page_num + 1)) as [tables|e]; simpl.
  - destruct (camelot_tables _ _ _ _) as [st' r] eqn:Hrun.
    apply camelot_tables_shown in Hrun as (more & Hst' & Hmore). simpl in Hst'.
    destruct r as [[]|e]; simpl; rewrite Hst', <- !app_assoc; eexists; split;
      try reflexivity; simpl; try done.
    by rewrite attempted_app, Hmore.
  - rewrite <- app_assoc. by eexists.
Qed.

Lemma extract_shown page positions headers :
  attempted (extract_page_data_with_pdfplumber page positions headers).2 = [].
Proof.
  unfold extract_page_data_with_pdfplumber. by destruct (extract_try _ _ _).
Qed.

Lemma process_page_shown env doc positions headers st page_num page :
  py_index doc page_num = Ok page →
  ∃ more, (process_page env doc positions headers st page_num).2
          = st.2 ++ InfoAttemptPdfplumber (page_num + 1) :: more
          ∧ attempted more = [].
Proof.
  intros Hpage. unfold process_page. rewrite Hpage.
  pose proof (extract_shown page positions headers) as Hshown.
  destruct (extract_page_data_with_pdfplumber _ _ _) as [df shown].
  simpl in Hshown.
  assert (∀ st0 : pstate, st0.2 = (st.2 ++ [InfoAttemptPdfplumber (page_num + 1)]) ++ shown →
    ∃ more, (camelot_fallback env headers page_num st0).2
            = st.2 ++ InfoAttemptPdfplumber (page_num + 1) :: more
            ∧ attempted more = []) as Hfallback.
  { intros st0 Hst0.
    destruct (camelot_fallback_shown env headers page_num st0) as (more & -> & Hmore).
    rewrite Hst0. exists (shown ++ more).
    rewrite attempted_app, Hshown, Hmore, <- !app_assoc. done. }
  destruct df as [df|]; [destruct (df_empty df)|]; try by apply Hfallback.
  simpl. exists (shown ++ [SuccessPdfplumber (page_num + 1)]).
  rewrite attempted_app, Hshown, <- !app_assoc. done.
Qed.

Lemma py_index_in_range {A} (l : list A) (i : Z) :
  0 ≤ i < Z.of_nat (length l) → ∃ a, py_index l i = Ok a.
Proof.
  intros Hi. unfold py_index. cbv zeta.
  rewrite (bool_decide_eq_false_2 (i < 0)) by lia.
  rewrite (bool_decide_eq_true_2 (0 ≤ i)) by lia.
  destruct (lookup_lt_is_Some_2 l (Z.to_nat i)) as [a Ha]; [lia|].
  rewrite Ha. by exists a.
Qed.

Lemma process_pages_attempted env doc positions headers pages st :
  Forall (λ p, 0 ≤ p < Z.of_nat (length doc)) pages →
  attempted (process_pages env doc positions headers st pages).2
  = attempted st.2 ++ pages.
Proof.
  intros Hpages. revert st.
  induction Hpages as [|p pages Hp _ IH]; intros st.
  - simpl. by rewrite app_nil_r.
  - change (process_pages env doc positions headers st (p :: pages))
      with (process_pages env doc positions headers
              (process_page env doc positions headers st p) pages).
    rewrite IH.
    destruct (py_index_in_range doc p Hp) as [page Hpage].
    destruct (process_page_shown env doc positions headers st p page Hpage)
      as (more & -> & Hmore).
    rewrite attempted_app. simpl. rewrite Hmore, <- app_assoc. simpl.
    do 3 f_equal. lia.
Qed.

(** Whatever the selection, [process_pdf] enters exactly the selected pages,
    in the order of the selection. *)
Lemma process_pdf_attempted env doc pages s e :
  pdf_open env = Ok doc →
  attempted (process_pdf env pages s e).2
  = pages_to_process pages s e (Z.of_nat (length doc)).
Proof.
  intros Hopen. unfold process_pdf. rewrite Hopen.
  pose proof (process_pages_attempted env doc column_positions expected_headers
    (pages_to_process pages s e (Z.of_nat (length doc)))
    ([], [InfoTotalPages (Z.of_nat (length doc));
          InfoProcessingPages ((λ p, p + 1) <$>
            pages_to_process pages s e (Z.of_nat (length doc)))])) as Hatt.
  fold (accumulate env doc pages s e) in Hatt.
  destruct (accumulate env doc pages s e) as [all_data shown]. simpl in Hatt.
  assert (attempted shown = pages_to_process pages s e (Z.of_nat (length doc)))
    as Hshown.
  { apply Hatt, Forall_forall. intros p. apply pages_to_process_in_range. }
  destruct all_data as [|d ds].
  - simpl. rewrite attempted_app, Hshown. simpl. by rewrite app_nil_r.
  - destruct (_ ≫= _) as [final|err]; simpl; [done|].
    rewrite attempted_app, Hshown. simpl. by rewrite app_nil_r.
Qed.

(** C3.  With [pages='all'] and both [start_page] and [end_page] given, on a
    document of [T] pages [process_pdf] selects, and enters in this order,
    the indices [max(start_page-1, 0)], ..., [min(end_page, T) - 1]: the
    [k]-th selected index is [max(start_page-1, 0) + k].  When the upper end
    does not exceed the lower one nothing is selected and the run ends with
    the no-data warning, not with an error.  Start 2 and end 5 on three
    pages select the indices 1 and 2. *)
Theorem process_pdf_page_range env doc (start_page end_page : Z) :
  pdf_open env = Ok doc →
  let T := Z.of_nat (length doc) in
  let lo := Z.max (start_page - 1) 0 in
  let hi := Z.min end_page T in
  let selected := pages_to_process PagesAll (Some start_page) (Some end_page) T in
  (∀ (k : nat) i, selected !! k = Some i ↔ i = lo + Z.of_nat k ∧ i ≤ hi - 1)
  ∧ (∀ i, i ∈ selected ↔ lo ≤ i ≤ hi - 1)
  ∧ attempted (process_pdf env PagesAll (Some start_page) (Some end_page)).2 = selected
  ∧ (hi - 1 < lo →
      selected = []
      ∧ process_pdf env PagesAll (Some start_page) (Some end_page)
        = (None, [InfoTotalPages T; InfoProcessingPages []; WarningNoData]))
  ∧ pages_to_process PagesAll (Some 2) (Some 5) 3 = [1; 2].
Proof.
  intros Hopen T lo hi selected.
  assert (selected = py_range lo hi) as Hsel by reflexivity.
  split; [|split; [|split; [|split]]].
  - intros k i. rewrite Hsel, py_range_lookup. lia.
  - intros i. rewrite Hsel, py_range_elem. lia.
  - by apply process_pdf_attempted.
  - intros Hempty.
    assert (selected = []) as Hnil by (rewrite Hsel; apply py_range_empty; lia).
    split; [done|].
    unfold process_pdf, accumulate. rewrite Hopen. fold T. fold selected.
    by rewrite Hnil.
  - reflexivity.
Qed.

Lemma process_pdf_page_range_witness :
  let env := mkEnv (Ok [Ok []; Ok []; Ok []]) (λ _, Ok []) (λ _, Ok ()) in
  attempted (process_pdf env PagesAll (Some 2) (Some 5)).2 = [1; 2].
Proof.
  intros env.
  exact (proj1 (proj2 (proj2
    (process_pdf_page_range env [Ok []; Ok []; Ok []] 2 5 eq_refl)))).
Defined.

(** C4.  An explicit page list on a document of [T] pages keeps exactly the
    values [p] with [1 <= p <= T], in the caller's order and with the
    caller's repetitions, and turns each into [p - 1]; hence every selected
    index lies between [0] and [T - 1].  The list 5, 1, 5 on four pages
    selects the index 0 alone. *)
Theorem page_list_selection (l : list Z) (start_page end_page : option Z) (T : Z) :
  let selected := pages_to_process (PagesList l) start_page end_page T in
  (λ i, i + 1) <$> selected = filter (λ p, 1 ≤ p ≤ T) l
  ∧ selected = (λ p, p - 1) <$> filter (λ p, 1 ≤ p ≤ T) l
  ∧ Forall (λ i, 0 ≤ i ≤ T - 1) selected
  ∧ pages_to_process (PagesList [5; 1; 5]) start_page end_page 4 = [0].
Proof.
  intros selected.
  assert (filter (λ p, 0 < p ≤ T) l = filter (λ p, 1 ≤ p ≤ T) l) as Hfilter.
  { apply list_filter_iff. intros p. lia. }
  assert (selected = (λ p, p - 1) <$> filter (λ p, 1 ≤ p ≤ T) l) as Hsel.
  { unfold selected. simpl. by rewrite Hfilter. }
  repeat split.
  - rewrite Hsel, <- list_fmap_compose.
    rewrite <- (list_fmap_id (filter _ l)) at 2.
    apply list_fmap_ext. intros _ p _. simpl. lia.
  - exact Hsel.
  - apply Forall_forall. intros i Hi.
    apply pages_to_process_in_range in Hi. lia.
Qed.

(** ** [clean_dataframe] *)

Lemma first_is_head (h0 : string) (r : list cell) :
  first_is h0 r ↔ head r = Some (Str h0).
Proof.
  destruct r as [|[|s] r]; simpl; [by split..|].
  rewrite bool_decide_spec. split; [by intros ->|by intros [= ->]].
Qed.

Lemma all_na_Forall (r : list cell) : all_na r ↔ Forall (λ c, c = NaN) r.
Proof.
  unfold all_na. induction r as [|c r IH]; simpl.
  - split; [constructor|done].
  - rewrite Forall_cons, <- IH. destruct c; simpl; [tauto|].
    split; [done | by intros [? _]].
Qed.

Lemma filter_all {A} (P : A → Prop) `{!∀ x, Decision (P x)} (l : list A) :
  Forall P l → filter P l = l.
Proof.
  induction 1 as [|x l Hx _ IH]; [done|].
  by rewrite filter_cons_True, IH.
Qed.

Lemma filter_none {A} (P : A → Prop) `{!∀ x, Decision (P x)} (l : list A) :
  Forall (λ x, ¬ P x) l → filter P l = [].
Proof.
  induction 1 as [|x l Hx _ IH]; [done|].
  by rewrite filter_cons_False.
Qed.

(** In a rectangular table that [df.empty] holds of, no record has a value. *)
Lemma df_empty_rows (df : DataFrame) :
  Forall (λ r, length r = length (columns df)) (data df) →
  df_empty df = true → Forall (λ r, r = []) (data df).
Proof.
  intros Hrect Hempty. unfold df_empty in Hempty.
  destruct (columns df) eqn:Hcols.
  - eapply Forall_impl; [exact Hrect|]. intros r Hr. by destruct r.
  - destruct (data df); [constructor | done].
Qed.

(** What [clean_dataframe] computes on a frame with rows and columns. *)
Lemma clean_dataframe_rows (df : DataFrame) (h0 : string) (hs : list string) :
  df_empty df = false →
  clean_dataframe (Some df) (h0 :: hs)
  = Ok (mkDataFrame (columns df)
          (filter (λ r, ¬ all_na r) (filter (λ r, ¬ first_is h0 r) (data df)))).
Proof. intros Hne. unfold clean_dataframe. by rewrite Hne. Qed.

Lemma clean_dataframe_empty (df : DataFrame) (headers : list string) :
  df_empty df = true →
  clean_dataframe (Some df) headers = Ok (mkDataFrame headers []).
Proof. intros He. unfold clean_dataframe. by rewrite He. Qed.

(** No row of a cleaned table consists of missing values only. *)
Lemma clean_dataframe_no_missing_row df headers out :
  clean_dataframe df headers = Ok out →
  Forall (λ r, ¬ Forall (λ c, c = NaN) r) (data out).
Proof.
  unfold clean_dataframe. intros Hclean.
  destruct df as [df|]; [destruct (df_empty df)|]; try (injection Hclean as <-; constructor).
  destruct headers as [|h0 hs]; [done|]. injection Hclean as <-. simpl.
  apply Forall_forall. intros r Hr.
  apply list_elem_of_filter in Hr as [Hna _]. by rewrite <- all_na_Forall.
Qed.

(** The cleaned table keeps the columns of its input, unless it is rebuilt
    from the headers. *)
Lemma clean_dataframe_columns df headers out :
  clean_dataframe (Some df) headers = Ok out →
  columns df = headers → columns out = headers.
Proof.
  unfold clean_dataframe. intros Hclean Hcols.
  destruct (df_empty df); [by injection Hclean as <-|].
  destruct headers; [done|]. by injection Hclean as <-.
Qed.

(** C5.  [clean_dataframe] keeps a record all of whose values are empty:
    the table with the expected headers and the single row of seven empty
    strings comes back unchanged.  [dropna(how='all')] removes the rows of
    missing values only. *)
Theorem clean_dataframe_keeps_blank_row :
  Forall (λ c, c = Str EmptyString) blank_row
  ∧ clean_dataframe (Some (mkDataFrame expected_headers [blank_row])) expected_headers
    = Ok (mkDataFrame expected_headers [blank_row]).
Proof.
  split; [by repeat constructor | reflexivity].
Qed.

(** C6.  On a rectangular table, [clean_dataframe] first removes the records
    whose first value is the first expected header, and only those, then the
    records of missing values only, keeping the order of the rest.  A record
    with another first value that carries the header text in some other
    column stays. *)
Theorem clean_dataframe_header_rule (df : DataFrame) (h0 : string) (hs : list string) :
  Forall (λ r, length r = length (columns df)) (data df) →
  ∃ out,
    clean_dataframe (Some df) (h0 :: hs) = Ok out
    ∧ data out
      = filter (λ r, ¬ Forall (λ c, c = NaN) r)
          (filter (λ r, head r ≠ Some (Str h0)) (data df))
    ∧ (∀ r, r ∈ data df → head r = Some (Str h0) → r ∉ data out)
    ∧ (∀ r (j : nat), r ∈ data df → head r ≠ Some (Str h0) →
         r !! j = Some (Str h0) → r ∈ data out).
Proof.
  intros Hrect.
  assert (∀ l : list (list cell),
    filter (λ r, ¬ all_na r) (filter (λ r, ¬ first_is h0 r) l)
    = filter (λ r, ¬ Forall (λ c, c = NaN) r)
        (filter (λ r, head r ≠ Some (Str h0)) l)) as Hfilters.
  { intros l. erewrite (list_filter_iff (λ r, ¬ all_na r)).
    - f_equal. apply list_filter_iff. intros r. by rewrite first_is_head.
    - intros r. by rewrite all_na_Forall. }
  destruct (df_empty df) eqn:Hempty.
  - exists (mkDataFrame (h0 :: hs) []). rewrite clean_dataframe_empty by done.
    pose proof (df_empty_rows df Hrect Hempty) as Hrows.
    rewrite Forall_forall in Hrows.
    simpl. split; [done|]. split; [|split].
    + symmetry. apply filter_none, Forall_forall. intros r Hr Hna.
      apply list_elem_of_filter in Hr as [_ Hr].
      apply Hna. rewrite (Hrows r Hr). constructor.
    + intros r _ _. apply not_elem_of_nil.
    + intros r j Hr _ Hj. by rewrite (Hrows r Hr) in Hj.
  - eexists. rewrite clean_dataframe_rows by done. simpl.
    split; [done|]. split; [apply Hfilters|]. rewrite Hfilters. split.
    + intros r _ Hhead Hr.
      apply list_elem_of_filter in Hr as [_ Hr].
      by apply list_elem_of_filter in Hr as [Hne _].
    + intros r j Hr Hhead Hj.
      apply list_elem_of_filter. split; [|by apply list_elem_of_filter].
      intros Hna. rewrite Forall_forall in Hna.
      by specialize (Hna _ (list_elem_of_lookup_2 _ _ _ Hj)).
Qed.

Lemma clean_dataframe_header_rule_witness :
  ∃ out,
    clean_dataframe
      (Some (mkDataFrame ["A"; "B"]%string
               [[Str "x"; Str "A"]; [Str "A"; Str "y"]; [NaN; NaN]]%string))
      ["A"; "B"]%string = Ok out
    ∧ data out = [[Str "x"; Str "A"]]%string.
Proof.
  destruct (clean_dataframe_header_rule
    (mkDataFrame ["A"; "B"]%string
       [[Str "x"; Str "A"]; [Str "A"; Str "y"]; [NaN; NaN]]%string)
    "A"%string ["B"%string]) as (out & Hout & Hdata & _).
  - repeat constructor.
  - exists out. split; [exact Hout|]. rewrite Hdata. reflexivity.
Defined.

(** C7, as the claim states it, fails: a table whose columns are not the
    expected headers and whose only record is removed comes back with its
    own columns the first time and with the expected headers the second. *)
Lemma clean_dataframe_twice_differs :
  let df := mkDataFrame ["A"]%string [[Str "Receipt No."]]%string in
  let headers := ["Receipt No."]%string in
  clean_dataframe (Some df) headers ≫= (λ d, clean_dataframe (Some d) headers)
  ≠ clean_dataframe (Some df) headers.
Proof. intros df headers. vm_compute. discriminate. Qed.

(** C7.  [clean_dataframe] is idempotent on the tables that carry the
    expected headers as their columns (and on [None]): cleaning the cleaned
    table again changes nothing, and a first cleaning that raises makes the
    second one moot. *)
Theorem clean_dataframe_idempotent (df : option DataFrame) (headers : list string) :
  (∀ d, df = Some d → columns d = headers) →
  clean_dataframe df headers ≫= (λ d, clean_dataframe (Some d) headers)
  = clean_dataframe df headers.
Proof.
  intros Hcols.
  assert (clean_dataframe (Some (mkDataFrame headers [])) headers
          = Ok (mkDataFrame headers [])) as Hnil.
  { apply clean_dataframe_empty. unfold df_empty. simpl. by destruct headers. }
  destruct df as [d|]; [|exact Hnil].
  specialize (Hcols d eq_refl).
  destruct (df_empty d) eqn:Hempty.
  { rewrite clean_dataframe_empty by done. exact Hnil. }
  destruct headers as [|h0 hs].
  { unfold df_empty in Hempty. by rewrite Hcols in Hempty. }
  rewrite clean_dataframe_rows by done.
  change (Ok ?x ≫= ?f) with (f x).
  set (kept := filter (λ r, ¬ all_na r) (filter (λ r, ¬ first_is h0 r) (data d))).
  destruct (df_empty (mkDataFrame (columns d) kept)) eqn:Hkept.
  - rewrite clean_dataframe_empty by done. f_equal.
    unfold df_empty in Hkept. simpl in Hkept. rewrite Hcols in *.
    by destruct kept.
  - rewrite clean_dataframe_rows by done. simpl. do 2 f_equal.
    assert (Forall (λ r, ¬ first_is h0 r) kept) as Hfirst.
    { apply Forall_forall. intros r Hr.
      apply list_elem_of_filter in Hr as [_ Hr].
      by apply list_elem_of_filter in Hr as [Hne _]. }
    assert (Forall (λ r, ¬ all_na r) kept) as Hna.
    { apply Forall_forall. intros r Hr.
      by apply list_elem_of_filter in Hr as [Hna _]. }
    by rewrite (filter_all _ kept Hfirst), (filter_all _ kept Hna).
Qed.

Lemma clean_dataframe_idempotent_witness :
  let df := mkDataFrame ["A"; "B"]%string
              [[Str "x"; Str "A"]; [Str "A"; Str "y"]; [NaN; NaN]]%string in
  clean_dataframe (Some df) ["A"; "B"]%string
    ≫= (λ d, clean_dataframe (Some d) ["A"; "B"]%string)
  = clean_dataframe (Some df) ["A"; "B"]%string.
Proof.
  intros df. apply (clean_dataframe_idempotent (Some df)).
  intros d Hd. injection Hd as <-. reflexivity.
Defined.

(** ** Column assignment *)

Lemma Qltb_lt (x y : Q) : Qltb x y ↔ (x < y)%Q.
Proof. unfold Qltb, Qlt. rewrite Is_true_true. apply Z.ltb_lt. Qed.

Lemma Qle_bool_le (x y : Q) : Qle_bool x y ↔ (x <= y)%Q.
Proof. rewrite Is_true_true. apply Qle_bool_iff. Qed.

Lemma in_interval_spec (x s : Q) (e : option Q) :
  in_interval x (s, e) ↔ (s <= x)%Q ∧ ∀ e', e = Some e' → (x < e')%Q.
Proof.
  unfold in_interval. simpl. rewrite andb_True, Qle_bool_le.
  destruct e as [e|].
  - rewrite Qltb_lt. split.
    + intros [Hs He]. split; [done|]. by intros e' [= <-].
    + intros [Hs He]. split; [done|]. by apply He.
  - split; [|by intros [Hs _]]. intros [Hs _]. by split.
Qed.

Lemma column_intervals_cons (a : Q) (cp : list Q) :
  column_intervals (a :: cp) = (a, head cp) :: column_intervals cp.
Proof. by destruct cp. Qed.

(** The interval of column [i] runs from position [i] to position [i + 1],
    when there is one. *)
Lemma column_intervals_lookup (cp : list Q) (i : nat) :
  column_intervals cp !! i = (λ s, (s, cp !! S i)) <$> cp !! i.
Proof.
  revert i. induction cp as [|a cp IH]; intros i; [done|].
  rewrite column_intervals_cons. destruct i as [|i]; simpl.
  - by rewrite head_lookup.
  - apply IH.
Qed.

(** The column of a word is the first interval that holds its [x0]. *)
Lemma find_column_Some (cp : list Q) (x : Q) (i : nat) :
  find_column cp x = Some i ↔
  (∃ s, cp !! i = Some s ∧ in_interval x (s, cp !! S i))
  ∧ ∀ (j : nat) s, cp !! j = Some s → (j < i)%nat → ¬ in_interval x (s, cp !! S j).
Proof.
  unfold find_column. rewrite fmap_Some. split.
  - intros ([i' se] & Hfind & ->). simpl.
    apply list_find_Some in Hfind as (Hi & Hin & Hbefore).
    rewrite column_intervals_lookup, fmap_Some in Hi.
    destruct Hi as (s & Hs & ->). split; [by exists s|].
    intros j s' Hj Hlt. apply (Hbefore j); [|done].
    by rewrite column_intervals_lookup, Hj.
  - intros [(s & Hs & Hin) Hbefore]. exists (i, (s, cp !! S i)). split; [|done].
    apply list_find_Some. split; [|split; [done|]].
    + by rewrite column_intervals_lookup, Hs.
    + intros j se Hj Hlt. rewrite column_intervals_lookup, fmap_Some in Hj.
      destruct Hj as (s' & Hs' & ->). by apply Hbefore.
Qed.

Lemma find_column_lt (cp : list Q) (x : Q) (i : nat) :
  find_column cp x = Some i → (i < length cp)%nat.
Proof.
  intros Hfind. apply find_column_Some in Hfind as [(s & Hs & _) _].
  by eapply lookup_lt_Some.
Qed.

Lemma StronglySorted_Qlt_lookup (cp : list Q) (i j : nat) (a b : Q) :
  StronglySorted Qlt cp → (i < j)%nat →
  cp !! i = Some a → cp !! j = Some b → (a < b)%Q.
Proof.
  intros Hsorted. revert i j.
  induction Hsorted as [|c cp _ IH Hc]; intros i j Hij Hi Hj; [done|].
  destruct j as [|j]; [lia|]. simpl in Hj. destruct i as [|i]; simpl in Hi.
  - injection Hi as <-. rewrite Forall_forall in Hc.
    apply Hc. by eapply list_elem_of_lookup_2.
  - apply (IH i j); [lia|done..].
Qed.

(** With strictly increasing positions the intervals are disjoint, so the
    column of a word is the one interval that holds its [x0]. *)
Lemma find_column_sorted (cp : list Q) (x : Q) (i : nat) :
  StronglySorted Qlt cp →
  find_column cp x = Some i ↔
  ∃ s, cp !! i = Some s ∧ (s <= x)%Q ∧ ∀ e, cp !! S i = Some e → (x < e)%Q.
Proof.
  intros Hsorted. rewrite find_column_Some. split.
  - intros [(s & Hs & Hin) _]. apply in_interval_spec in Hin. by exists s.
  - intros (s & Hs & Hle & Hlt). split.
    + exists s. split; [done|]. by apply in_interval_spec.
    + intros j s' Hj Hji Hin. apply in_interval_spec in Hin as [_ Hend].
      destruct (lookup_lt_is_Some_2 cp (S j)) as [e He].
      { apply lookup_lt_Some in Hs. lia. }
      specialize (Hend e He).
      assert (e <= s)%Q as Hes.
      { destruct (decide (S j = i)) as [<-|Hne].
        - rewrite He in Hs. injection Hs as <-. apply Qle_refl.
        - apply Qlt_le_weak.
          apply (StronglySorted_Qlt_lookup cp (S j) i); [done|lia|done..]. }
      apply (Qlt_irrefl x).
      eapply Qlt_le_trans; [exact Hend|]. by eapply Qle_trans.
Qed.

(** With strictly increasing positions a word left of the first position
    has no column. *)
Lemma find_column_below_first (cp : list Q) (x first : Q) :
  StronglySorted Qlt cp → head cp = Some first → (x < first)%Q →
  find_column cp x = None.
Proof.
  intros Hsorted Hfirst Hx.
  destruct (find_column cp x) as [i|] eqn:Hfind; [exfalso|done].
  apply find_column_sorted in Hfind as (s & Hs & Hle & _); [|done].
  rewrite head_lookup in Hfirst.
  assert (first <= s)%Q as Hfs.
  { destruct i as [|i].
    - rewrite Hfirst in Hs. injection Hs as <-. apply Qle_refl.
    - apply Qlt_le_weak.
      apply (StronglySorted_Qlt_lookup cp 0 (S i)); [done|lia|done..]. }
  apply (Qlt_irrefl x).
  eapply Qlt_le_trans; [exact Hx|]. by eapply Qle_trans.
Qed.

(** ** The grid of a page *)

Section grid.
Variable n_headers : nat.
Variable cp : list Q.

Lemma bucket_snoc words w rk i :
  bucket cp (words ++ [w]) rk i
  = bucket cp words rk i
    ++ (if decide (row_key (top w) = rk ∧ find_column cp (x0 w) = Some i)
        then [text w] else []).
Proof.
  unfold bucket. rewrite filter_app, fmap_app. f_equal.
  rewrite filter_cons, filter_nil. by case_decide.
Qed.

Lemma bucket_no_key words rk i : rk ∉ keys words → bucket cp words rk i = [].
Proof.
  intros Hrk. unfold bucket. rewrite filter_none; [done|].
  apply Forall_forall. intros w Hw [Hkey _]. apply Hrk.
  unfold keys. apply list_elem_of_fmap. by exists w.
Qed.

Lemma keys_snoc words w rk :
  rk ∈ keys (words ++ [w]) ↔ rk ∈ keys words ∨ rk = row_key (top w).
Proof.
  unfold keys. rewrite fmap_app, elem_of_app. simpl.
  by rewrite list_elem_of_singleton.
Qed.

Lemma place_words_snoc rows words w :
  place_words n_headers cp rows (words ++ [w])
  = place_words n_headers cp rows words ≫= (λ rows', place_word n_headers cp rows' w).
Proof.
  revert rows. induction words as [|w' words IH]; intros rows; simpl.
  - by destruct (place_word n_headers cp rows w).
  - destruct (place_word n_headers cp rows w') as [rows'|e]; simpl; [apply IH|done].
Qed.

Lemma grid_row_lookup words rk i :
  (bucket cp words rk <$> seq 0 n_headers) !! i
  = if decide (i < n_headers)%nat then Some (bucket cp words rk i) else None.
Proof.
  rewrite list_lookup_fmap. case_decide.
  - by rewrite lookup_seq_lt.
  - rewrite lookup_seq_ge by lia. done.
Qed.

(** One step of the scan keeps the dictionary in line with [grid_row]. *)
Lemma place_word_grid rows rows' words w :
  (∀ rk, rows !! rk = grid_row n_headers cp words rk) →
  place_word n_headers cp rows w = Ok rows' →
  ∀ rk, rows' !! rk = grid_row n_headers cp (words ++ [w]) rk.
Proof.
  intros Hrows Hplace rk. unfold place_word in Hplace. cbv zeta in Hplace.
  set (rk0 := row_key (top w)) in *.
  set (rows1 := match rows !! rk0 with
                | Some _ => rows
                | None => <[rk0 := replicate n_headers []]> rows
                end) in *.
  assert (rows1 !! rk0 = Some (bucket cp words rk0 <$> seq 0 n_headers)) as Hrk0.
  { unfold rows1. destruct (rows !! rk0) as [cells|] eqn:Hcells.
    - rewrite Hcells, Hrows in *. unfold grid_row in *. by case_decide.
    - rewrite lookup_insert_eq. f_equal.
      rewrite Hrows in Hcells. unfold grid_row in Hcells. case_decide; [done|].
      apply list_eq. intros i. rewrite grid_row_lookup.
      rewrite bucket_no_key by done. case_decide.
      + by apply lookup_replicate_2.
      + apply lookup_replicate_None. lia. }
  assert (∀ k, k ≠ rk0 → rows1 !! k = grid_row n_headers cp (words ++ [w]) k) as Hother.
  { intros k Hk.
    assert (rows1 !! k = rows !! k) as ->.
    { unfold rows1. destruct (rows !! rk0); [done|]. by rewrite lookup_insert_ne. }
    rewrite Hrows. unfold grid_row.
    assert (bucket cp (words ++ [w]) k <$> seq 0 n_headers
            = bucket cp words k <$> seq 0 n_headers) as ->.
    { apply list_fmap_ext. intros _ i _.
      rewrite bucket_snoc, decide_False, app_nil_r; [done|].
      intros [Hkey _]. by apply Hk. }
    apply decide_ext. rewrite keys_snoc. split; [by left|].
    by intros [?|?]. }
  assert (rk0 ∈ keys (words ++ [w])) as Hin by (apply keys_snoc; by right).
  destruct (find_column cp (x0 w)) as [idx|] eqn:Hcol.
  - rewrite (lookup_total_correct _ _ _ Hrk0) in Hplace.
    destruct (_ !! idx) as [c|] eqn:Hc; [|done].
    injection Hplace as <-.
    rewrite grid_row_lookup in Hc. case_decide as Hidx; [|done].
    injection Hc as <-.
    destruct (decide (rk = rk0)) as [->|Hne];
      [|rewrite lookup_insert_ne by done; by apply Hother].
    rewrite lookup_insert_eq. unfold grid_row. rewrite decide_True by done.
    f_equal. apply list_eq. intros i. rewrite grid_row_lookup.
    destruct (decide (i = idx)) as [->|Hi].
    + rewrite list_lookup_insert_eq by (by rewrite length_fmap, length_seq).
      rewrite decide_True by done. f_equal.
      by rewrite bucket_snoc, decide_True.
    + rewrite list_lookup_insert_ne, grid_row_lookup by done.
      case_decide; [|done]. f_equal.
      rewrite bucket_snoc, decide_False, app_nil_r; [done|].
      intros [_ Hcol']. rewrite Hcol in Hcol'. injection Hcol' as Heq.
      by apply Hi.
  - injection Hplace as <-.
    destruct (decide (rk = rk0)) as [->|Hne]; [|by apply Hother].
    rewrite Hrk0. unfold grid_row. rewrite decide_True by done. f_equal.
    apply list_fmap_ext. intros _ i _.
    rewrite bucket_snoc, decide_False, app_nil_r; [done|].
    intros [_ Hcol']. by rewrite Hcol in Hcol'.
Qed.

(** The step raises only on a column index beyond the row. *)
Lemma place_word_ok rows words w :
  (∀ rk, rows !! rk = grid_row n_headers cp words rk) →
  (length cp ≤ n_headers)%nat →
  ∃ rows', place_word n_headers cp rows w = Ok rows'.
Proof.
  intros Hrows Hlen. unfold place_word. cbv zeta.
  destruct (find_column cp (x0 w)) as [idx|] eqn:Hcol; [|by eexists].
  apply find_column_lt in Hcol.
  set (rows1 := match rows !! row_key (top w) with
                | Some _ => rows
                | None => <[row_key (top w) := replicate n_headers []]> rows
                end).
  assert (∃ cells : list (list string),
            rows1 !! row_key (top w) = Some cells ∧ length cells = n_headers)
    as (cells & Hcells & Hn).
  { unfold rows1. destruct (rows !! row_key (top w)) as [cells|] eqn:Hc.
    - exists cells. split; [done|].
      rewrite Hrows in Hc. unfold grid_row in Hc. case_decide; [|done].
      injection Hc as <-. by rewrite length_fmap, length_seq.
    - eexists. rewrite lookup_insert_eq. split; [done|]. apply length_replicate. }
  rewrite (lookup_total_correct _ _ _ Hcells).
  destruct (lookup_lt_is_Some_2 cells idx) as [c Hc]; [lia|].
  rewrite Hc. by eexists.
Qed.

(** The dictionary the scan of a page leaves, when it raises nothing: the
    row of a key holds, column by column, the texts of the words with that
    key and that column, in the order of the words. *)
Lemma place_words_grid words rows :
  place_words n_headers cp ∅ words = Ok rows →
  ∀ rk, rows !! rk = grid_row n_headers cp words rk.
Proof.
  revert rows. induction words as [|w words IH] using rev_ind; intros rows Hrun.
  - injection Hrun as <-. intros rk. rewrite lookup_empty.
    unfold grid_row. rewrite decide_False; [done|]. apply not_elem_of_nil.
  - rewrite place_words_snoc in Hrun.
    destruct (place_words n_headers cp ∅ words) as [rows0|e]; [|done].
    eapply place_word_grid; [by apply IH | exact Hrun].
Qed.

(** With no more column positions than headers the scan raises nothing. *)
Lemma place_words_ok words :
  (length cp ≤ n_headers)%nat →
  ∃ rows, place_words n_headers cp ∅ words = Ok rows.
Proof.
  intros Hlen. induction words as [|w words IH] using rev_ind; [by eexists|].
  destruct IH as [rows0 Hrows0]. rewrite place_words_snoc, Hrows0.
  apply (place_word_ok rows0 words w); [|done].
  by apply place_words_grid.
Qed.

Lemma place_words_dom words rows :
  place_words n_headers cp ∅ words = Ok rows →
  dom rows = list_to_set (keys words).
Proof.
  intros Hrun. apply set_eq. intros rk.
  rewrite elem_of_dom, (place_words_grid words rows Hrun), elem_of_list_to_set.
  unfold grid_row. case_decide; [|by rewrite <- not_eq_None_Some].
  split; [done|]. by eexists.
Qed.
End grid.

(** ** From the dictionary to the table *)

Lemma sorted_keys_perm (rows : gmap Z (list (list string))) :
  sorted_keys rows ≡ₚ elements (dom rows).
Proof. apply merge_sort_Permutation. Qed.

(** The rows of the table follow the row keys in ascending order. *)
Lemma sorted_keys_sorted (rows : gmap Z (list (list string))) :
  StronglySorted Z.le (sorted_keys rows).
Proof. apply StronglySorted_merge_sort; apply _. Qed.

Lemma length_data_rows (rows : gmap Z (list (list string))) :
  length (data_rows rows) = size (dom rows).
Proof.
  unfold data_rows. rewrite length_fmap.
  apply Permutation_length, sorted_keys_perm.
Qed.

Lemma data_rows_nil (rows : gmap Z (list (list string))) :
  data_rows rows = [] ↔ rows = ∅.
Proof.
  rewrite <- length_zero_iff_nil, length_data_rows, size_empty_iff.
  apply dom_empty_iff.
Qed.

Lemma clean_dataframe_frame_ok (h : list string) (rs : list (list string)) :
  ∃ out, clean_dataframe (Some (frame_of_rows h rs)) h = Ok out.
Proof.
  unfold clean_dataframe.
  destruct (df_empty (frame_of_rows h rs)) eqn:Hempty; [by eexists|].
  destruct h; [done|]. by eexists.
Qed.

(** The result of the [try] block on a page whose words the scan places. *)
Lemma extract_try_rows (cp : list Q) (h : list string) words rows :
  place_words (length h) cp ∅ words = Ok rows →
  extract_try (Ok words) cp h
  = match data_rows rows with
    | [] => Ok None
    | rs => clean_dataframe (Some (frame_of_rows h rs)) h ≫= (λ df, Ok (Some df))
    end.
Proof.
  intros Hrun. unfold extract_try.
  change (Ok words ≫= ?f) with (f words). cbv beta. rewrite Hrun.
  change (Ok rows ≫= ?f) with (f rows). cbv beta.
  by destruct (data_rows rows).
Qed.

(** With no more column positions than headers the extraction of a page
    that yields its words shows no error. *)
Lemma extract_no_error (cp : list Q) (h : list string) words :
  (length cp ≤ length h)%nat →
  (extract_page_data_with_pdfplumber (Ok words) cp h).2 = [].
Proof.
  intros Hlen. unfold extract_page_data_with_pdfplumber.
  destruct (place_words_ok (length h) cp words Hlen) as [rows Hrows].
  rewrite (extract_try_rows cp h words rows Hrows).
  destruct (data_rows rows) as [|r rs]; [done|].
  destruct (clean_dataframe_frame_ok h (r :: rs)) as [out ->]. done.
Qed.

(** C1.  Let the column positions increase strictly and be as many as the
    headers.  The scan assigns a word to column [i] exactly when position
    [i] is at most its [x0] and, unless [i] is the last column, its [x0] is
    below position [i + 1]; this holds of at most one column.  The scan of a
    page raises nothing, and in the dictionary it leaves, the row of a key
    holds in column [i] the texts of the words with that key and that
    column, in the order of the words.  A word left of the first position
    has no column: placing it adds at most a row of empty cells for its key
    and leaves every cell as it was.  The extraction shows no error. *)
Theorem word_column_assignment (cp : list Q) (h : list string) (words : list word) :
  StronglySorted Qlt cp →
  length cp = length h →
  (∀ x i, find_column cp x = Some i ↔
     ∃ s, cp !! i = Some s ∧ (s <= x)%Q ∧ ∀ e, cp !! S i = Some e → (x < e)%Q)
  ∧ (∃ rows,
       place_words (length h) cp ∅ words = Ok rows
       ∧ (∀ rk, rows !! rk = None ↔ rk ∉ keys words)
       ∧ (∀ rk cells (i : nat), rows !! rk = Some cells → (i < length h)%nat →
            cells !! i
            = Some (text <$> filter (λ w, row_key (top w) = rk
                                          ∧ find_column cp (x0 w) = Some i) words)))
  ∧ (∀ first w rows, head cp = Some first → (x0 w < first)%Q →
       find_column cp (x0 w) = None
       ∧ ∃ rows', place_word (length h) cp rows w = Ok rows'
           ∧ ∀ rk, rows' !! rk
                   = match rows !! rk with
                     | Some cells => Some cells
                     | None => if decide (rk = row_key (top w))
                               then Some (replicate (length h) [])
                               else None
                     end)
  ∧ (extract_page_data_with_pdfplumber (Ok words) cp h).2 = [].
Proof.
  intros Hsorted Hlen. split; [|split; [|split]].
  - intros x i. by apply find_column_sorted.
  - destruct (place_words_ok (length h) cp words) as [rows Hrows]; [lia|].
    exists rows. split; [done|].
    pose proof (place_words_grid _ _ _ _ Hrows) as Hgrid. split.
    + intros rk. rewrite Hgrid. unfold grid_row. case_decide; [|done].
      split; [done|]. by intros Hrk.
    + intros rk cells i Hcells Hi. rewrite Hgrid in Hcells.
      unfold grid_row in Hcells. case_decide; [|done]. injection Hcells as <-.
      rewrite grid_row_lookup. by rewrite decide_True.
  - intros first w rows Hfirst Hx.
    pose proof (find_column_below_first cp (x0 w) first Hsorted Hfirst Hx) as Hnone.
    split; [done|]. unfold place_word. cbv zeta. rewrite Hnone.
    eexists. split; [done|]. intros rk.
    destruct (rows !! row_key (top w)) as [cells0|] eqn:Hcells0.
    + destruct (rows !! rk) eqn:Hrk; [done|].
      rewrite decide_False; [done|]. intros ->. by rewrite Hcells0 in Hrk.
    + destruct (decide (rk = row_key (top w))) as [->|Hne].
      * by rewrite lookup_insert_eq, Hcells0.
      * rewrite lookup_insert_ne by done. by destruct (rows !! rk).
  - apply extract_no_error. lia.
Qed.

Lemma word_column_assignment_witness :
  find_column [0 # 1; 10 # 1; 20 # 1]%Q (11 # 1)%Q = Some 1%nat
  ∧ find_column [0 # 1; 10 # 1; 20 # 1]%Q (-3 # 1)%Q = None.
Proof.
  destruct (word_column_assignment [0 # 1; 10 # 1; 20 # 1]%Q
              ["a"; "b"; "c"]%string
              [mkWord "H1" (1 # 1) (0 # 1); mkWord "H2" (11 # 1) (0 # 1)])
    as (Hcol & _ & Hleft & _).
  - repeat constructor.
  - reflexivity.
  - split.
    + apply Hcol. exists (10 # 1)%Q. repeat split.
      * discriminate.
      * intros e [= <-]. reflexivity.
    + apply (Hleft (0 # 1)%Q (mkWord "m" (-3 # 1) (0 # 1)) ∅); reflexivity.
Defined.

(** ** Row keys *)

(** C2, as the claim states it, fails: [round(109, -1)] is 110, not 100, so
    the three words get three row keys and the page three rows. *)
Lemma three_tokens_not_two_rows :
  let words := [ mkWord "a" (40 # 1) (100 # 1); mkWord "b" (40 # 1) (109 # 1);
                 mkWord "c" (40 # 1) (121 # 1) ] in
  row_key (100 # 1) ≠ row_key (109 # 1)
  ∧ ¬ ∃ df,
        (extract_page_data_with_pdfplumber (Ok words) column_positions
           expected_headers).1 = Some df
        ∧ length (data df) = 2%nat.
Proof.
  intros words. split; [by vm_compute|].
  intros (df & Hdf & Hlen). vm_compute in Hdf. injection Hdf as <-.
  vm_compute in Hlen. discriminate.
Qed.

(** C2.  The row key of a word is its [top] rounded to the nearest multiple
    of ten: 100 for 100, 110 for 109 and 120 for 121.  A page with exactly
    three words at these tops, whatever their texts and [x0], gives a grid
    of exactly three rows, with the keys 100, 110 and 120. *)
Theorem three_tokens_three_rows (cp : list Q) (h : list string) (words : list word) :
  (length cp ≤ length h)%nat →
  top <$> words ≡ₚ [100 # 1; 109 # 1; 121 # 1]%Q →
  row_key (100 # 1) = 100 ∧ row_key (109 # 1) = 110 ∧ row_key (121 # 1) = 120
  ∧ ∃ rows,
      place_words (length h) cp ∅ words = Ok rows
      ∧ sorted_keys rows = [100; 110; 120]
      ∧ length (data_rows rows) = 3%nat.
Proof.
  intros Hlen Htops. do 3 (split; [reflexivity|]).
  destruct (place_words_ok (length h) cp words Hlen) as [rows Hrows].
  exists rows. split; [done|].
  assert (dom rows = list_to_set [100; 110; 120]) as Hdom.
  { rewrite (place_words_dom _ _ _ _ Hrows).
    apply list_to_set_perm_L. unfold keys.
    change (λ w, row_key (top w)) with (row_key ∘ top).
    rewrite (list_fmap_compose top row_key words), Htops. reflexivity. }
  unfold data_rows. rewrite length_fmap.
  unfold sorted_keys. rewrite Hdom. by vm_compute.
Qed.

Lemma three_tokens_three_rows_witness :
  ∃ rows,
    place_words 3 [0 # 1; 10 # 1; 20 # 1]%Q ∅
      [ mkWord "c" (5 # 1) (121 # 1); mkWord "a" (1 # 1) (100 # 1);
        mkWord "b" (11 # 1) (109 # 1) ] = Ok rows
    ∧ length (data_rows rows) = 3%nat.
Proof.
  destruct (three_tokens_three_rows [0 # 1; 10 # 1; 20 # 1]%Q
              ["a"; "b"; "c"]%string
              [ mkWord "c" (5 # 1) (121 # 1); mkWord "a" (1 # 1) (100 # 1);
                mkWord "b" (11 # 1) (109 # 1) ])
    as (_ & _ & _ & rows & Hrows & _ & Hlen).
  - simpl. lia.
  - simpl. apply Permutation_cons_append.
  - by exists rows.
Defined.

(** ** Pages without a table, and the fallback *)

Lemma place_words_nonempty (n : nat) (cp : list Q) words rows :
  place_words n cp ∅ words = Ok rows → words ≠ [] → data_rows rows ≠ [].
Proof.
  intros Hrun Hwords Hnil. apply data_rows_nil in Hnil. subst rows.
  destruct words as [|w words]; [done|].
  pose proof (place_words_grid _ _ _ _ Hrun (row_key (top w))) as Hrow.
  rewrite lookup_empty in Hrow. unfold grid_row in Hrow.
  rewrite decide_True in Hrow; [done|]. unfold keys. simpl. apply elem_of_cons; by left.
Qed.

(** Only the page without words gives [None] without an error. *)
Lemma extract_nothing_iff (cp : list Q) (h : list string) (words : list word) :
  extract_page_data_with_pdfplumber (Ok words) cp h = (None, []) ↔ words = [].
Proof.
  split; [|by intros ->].
  intros Hnone. destruct words as [|w words]; [done|exfalso].
  unfold extract_page_data_with_pdfplumber in Hnone.
  destruct (place_words (length h) cp ∅ (w :: words)) as [rows|e] eqn:Hrun.
  - rewrite (extract_try_rows cp h _ rows Hrun) in Hnone.
    pose proof (place_words_nonempty _ _ _ _ Hrun) as Hne.
    destruct (data_rows rows) as [|r rs]; [by apply Hne|].
    destruct (clean_dataframe_frame_ok h (r :: rs)) as [out Hout].
    by rewrite Hout in Hnone.
  - unfold extract_try in Hnone.
    change (Ok ?ws ≫= ?f) with (f ws) in Hnone. cbv beta in Hnone.
    by rewrite Hrun in Hnone.
Qed.

(** When the extraction of a page gives [None] or a table that
    [df.empty] holds of, the page loop takes the Camelot branch. *)
Lemma process_page_fallback env doc positions headers st page_num page r shown :
  py_index doc page_num = Ok page →
  extract_page_data_with_pdfplumber page positions headers = (r, shown) →
  (r = None ∨ ∃ df, r = Some df ∧ df_empty df = true) →
  process_page env doc positions headers st page_num
  = camelot_fallback env headers page_num
      (st.1, (st.2 ++ [InfoAttemptPdfplumber (page_num + 1)]) ++ shown).
Proof.
  intros Hpage Hextract Hr. unfold process_page. rewrite Hpage, Hextract. simpl.
  destruct Hr as [->|(df & -> & ->)]; done.
Qed.

Lemma camelot_fallback_announced env headers page_num st :
  InfoAttemptCamelot (page_num + 1) ∈ (camelot_fallback env headers page_num st).2.
Proof.
  unfold camelot_fallback.
  destruct (camelot_read_pdf env (page_num + 1)) as [tables|e]; simpl.
  - destruct (camelot_tables _ _ _ _) as [st' r] eqn:Hrun.
    apply camelot_tables_shown in Hrun as (more & Hst' & _). simpl in Hst'.
    assert (InfoAttemptCamelot (page_num + 1) ∈ st'.2) as Hin.
    { rewrite Hst'. apply elem_of_app. left. apply elem_of_app. right.
      by apply list_elem_of_singleton. }
    destruct r as [[]|e]; simpl; [done|].
    apply elem_of_app. by left.
  - apply elem_of_app. left. apply elem_of_app. right. apply elem_of_cons; by left.
Qed.

Lemma camelot_tables_nothing headers page_no tables st :
  Forall (yields_nothing headers) tables →
  camelot_tables headers page_no tables st = (st, Ok ()).
Proof.
  induction 1 as [|t tables Ht _ IH]; [done|]. simpl.
  case_bool_decide as Hcols.
  - destruct Ht as [Hne|(out & -> & ->)]; [done|exact IH].
  - exact IH.
Qed.

(** C8.  A page without words makes [extract_page_data_with_pdfplumber]
    return [None], which is no table at all, and shows no error; no other
    page that yields its words does.  The page loop then, as on every [None]
    or empty result, announces and runs the Camelot fallback.  When Camelot
    finds no usable table, or raises, the page adds nothing to [all_data],
    and the loop goes on with the remaining pages. *)
Theorem empty_page_falls_back env doc positions headers st page_num :
  py_index doc page_num = Ok (Ok []) →
  let st' := process_page env doc positions headers st page_num in
  extract_page_data_with_pdfplumber (Ok []) positions headers = (None, [])
  ∧ (∀ df, (extract_page_data_with_pdfplumber (Ok []) positions headers).1 ≠ Some df)
  ∧ (∀ words, extract_page_data_with_pdfplumber (Ok words) positions headers = (None, [])
              ↔ words = [])
  ∧ st' = camelot_fallback env headers page_num
            (st.1, st.2 ++ [InfoAttemptPdfplumber (page_num + 1)])
  ∧ InfoAttemptCamelot (page_num + 1) ∈ st'.2
  ∧ (∀ p page r shown,
       py_index doc p = Ok page →
       extract_page_data_with_pdfplumber page positions headers = (r, shown) →
       (r = None ∨ ∃ df, r = Some df ∧ df_empty df = true) →
       InfoAttemptCamelot (p + 1) ∈ (process_page env doc positions headers st p).2)
  ∧ (∀ tables, camelot_read_pdf env (page_num + 1) = Ok tables →
       Forall (yields_nothing headers) tables →
       st' = (st.1, st.2 ++ [InfoAttemptPdfplumber (page_num + 1);
                             InfoAttemptCamelot (page_num + 1)]))
  ∧ (∀ e, camelot_read_pdf env (page_num + 1) = Raised e →
       st' = (st.1, st.2 ++ [InfoAttemptPdfplumber (page_num + 1);
                             InfoAttemptCamelot (page_num + 1);
                             ErrorPage (page_num + 1) e]))
  ∧ ∀ rest, process_pages env doc positions headers st (page_num :: rest)
            = process_pages env doc positions headers st' rest.
Proof.
  intros Hpage st'.
  assert (st' = camelot_fallback env headers page_num
                  (st.1, st.2 ++ [InfoAttemptPdfplumber (page_num + 1)])) as Hst'.
  { unfold st'.
    rewrite (process_page_fallback env doc positions headers st page_num
               (Ok []) None []); [by rewrite app_nil_r|done|done|by left]. }
  split; [done|]. split; [done|]. split; [apply extract_nothing_iff|].
  split; [done|]. split; [rewrite Hst'; apply camelot_fallback_announced|].
  split; [|split; [|split]].
  - intros p page r shown Hp Hextract Hr.
    rewrite (process_page_fallback _ _ _ _ _ _ _ _ _ Hp Hextract Hr).
    apply camelot_fallback_announced.
  - intros tables Htables Hnothing. rewrite Hst'. unfold camelot_fallback.
    rewrite Htables, camelot_tables_nothing by done. simpl.
    by rewrite <- app_assoc.
  - intros e He. rewrite Hst'. unfold camelot_fallback. rewrite He. simpl.
    by rewrite <- !app_assoc.
  - done.
Qed.

Lemma empty_page_falls_back_witness :
  let env := mkEnv (Ok [Ok []; Ok []]) (λ _, Ok []) (λ _, Ok ()) in
  process_page env [Ok []; Ok []] column_positions expected_headers ([], []) 0
  = ([], [InfoAttemptPdfplumber 1; InfoAttemptCamelot 1]).
Proof.
  intros env.
  destruct (empty_page_falls_back env [Ok []; Ok []] column_positions
              expected_headers ([], []) 0 eq_refl)
    as (_ & _ & _ & _ & _ & _ & Hnothing & _).
  apply (Hnothing []); [reflexivity | constructor].
Defined.

(** ** Pages whose words lie left of the first column *)

Lemma bucket_no_column (cp : list Q) words rk i :
  Forall (λ w, find_column cp (x0 w) = None) words → bucket cp words rk i = [].
Proof.
  intros Hnone. unfold bucket. rewrite filter_none; [done|].
  eapply Forall_impl; [exact Hnone|]. intros w Hw [_ Hcol]. by rewrite Hw in Hcol.
Qed.

(** When no word has a column, every row of the grid is a row of empty
    strings, and there is one row for each row key. *)
Lemma data_rows_blank (n : nat) (cp : list Q) words rows :
  place_words n cp ∅ words = Ok rows →
  Forall (λ w, find_column cp (x0 w) = None) words →
  data_rows rows
  = replicate (size (list_to_set (keys words) : gset Z)) (replicate n EmptyString).
Proof.
  intros Hrun Hnone. unfold data_rows.
  rewrite (const_fmap _ _ (replicate n EmptyString)).
  - f_equal. rewrite <- (place_words_dom _ _ _ _ Hrun).
    apply Permutation_length, sorted_keys_perm.
  - intros k rk Hk. apply list_elem_of_lookup_2 in Hk.
    rewrite sorted_keys_perm in Hk. apply elem_of_elements, elem_of_dom in Hk.
    destruct Hk as [cells Hcells]. rewrite (lookup_total_correct _ _ _ Hcells).
    rewrite (place_words_grid _ _ _ _ Hrun) in Hcells.
    unfold grid_row in Hcells. case_decide; [|done]. injection Hcells as <-.
    rewrite <- list_fmap_compose.
    rewrite (const_fmap _ _ EmptyString); [by rewrite length_seq|].
    intros j i _. simpl. by rewrite bucket_no_column.
Qed.

(** C9.  Take a page with at least one word, all of them left of the first
    column position 37.5.  With the headers and positions of [process_pdf],
    [extract_page_data_with_pdfplumber] returns a table, not [None]: it has
    one row for each distinct row key, each row seven empty strings, and
    [df.empty] does not hold of it.  The page loop appends this table to
    [all_data] and does not turn to Camelot. *)
Theorem left_margin_page_rows (words : list word) :
  words ≠ [] →
  Forall (λ w, (x0 w < 375 # 10)%Q) words →
  ∃ df,
    extract_page_data_with_pdfplumber (Ok words) column_positions expected_headers
    = (Some df, [])
    ∧ columns df = expected_headers
    ∧ data df = replicate (size (list_to_set (keys words) : gset Z)) blank_row
    ∧ df_empty df = false
    ∧ ∀ env doc st page_num,
        py_index doc page_num = Ok (Ok words) →
        process_page env doc column_positions expected_headers st page_num
        = (st.1 ++ [df],
           st.2 ++ [InfoAttemptPdfplumber (page_num + 1);
                    SuccessPdfplumber (page_num + 1)]).
Proof.
  intros Hwords Hleft.
  assert (Forall (λ w, find_column column_positions (x0 w) = None) words) as Hnone.
  { eapply Forall_impl; [exact Hleft|]. intros w Hw.
    apply (find_column_below_first column_positions (x0 w) (375 # 10)%Q);
      [repeat constructor | reflexivity | exact Hw]. }
  destruct (place_words_ok (length expected_headers) column_positions words)
    as [rows Hrows]; [simpl; lia|].
  set (k := size (list_to_set (keys words) : gset Z)).
  assert (k ≠ 0)%nat as Hk.
  { unfold k. apply size_non_empty_iff. destruct words as [|w words]; [done|].
    intros Hempty. apply (not_elem_of_empty (C:=gset Z) (row_key (top w))).
    rewrite <- Hempty. unfold keys. simpl. apply elem_of_union. left.
    by apply elem_of_singleton. }
  pose proof (data_rows_blank _ _ _ _ Hrows Hnone) as Hdata. fold k in Hdata.
  assert (extract_page_data_with_pdfplumber (Ok words) column_positions expected_headers
          = (Some (mkDataFrame expected_headers (replicate k blank_row)), []))
    as Hextract.
  { unfold extract_page_data_with_pdfplumber.
    rewrite (extract_try_rows _ _ _ _ Hrows), Hdata.
    destruct k as [|k']; [done|].
    change (replicate (S k') ?x) with (x :: replicate k' x).
    cbv iota. rewrite <- (replicate_S k').
    unfold frame_of_rows. rewrite fmap_replicate.
    change (Str <$> replicate (length expected_headers) EmptyString) with blank_row.
    pose proof (clean_dataframe_rows
      (mkDataFrame expected_headers (replicate (S k') blank_row))
      "Receipt No." (tail expected_headers) eq_refl) as Hclean.
    change ("Receipt No."%string :: tail expected_headers)
      with expected_headers in Hclean.
    rewrite Hclean. cbn [columns data].
    rewrite (filter_all _ (replicate (S k') blank_row))
      by (apply Forall_replicate; by vm_compute).
    rewrite (filter_all _ (replicate (S k') blank_row))
      by (apply Forall_replicate; by vm_compute).
    done. }
  exists (mkDataFrame expected_headers (replicate k blank_row)).
  split; [exact Hextract|]. split; [reflexivity|]. split; [reflexivity|].
  assert (df_empty (mkDataFrame expected_headers (replicate k blank_row)) = false)
    as Hfull by (by destruct k).
  split; [exact Hfull|].
  intros env doc st page_num Hpage. unfold process_page.
  rewrite Hpage, Hextract, Hfull. simpl. by rewrite app_nil_r, <- app_assoc.
Qed.

Lemma left_margin_page_rows_witness :
  ∃ df,
    extract_page_data_with_pdfplumber
      (Ok [mkWord "1" (20 # 1) (100 # 1); mkWord "2" (30 # 1) (131 # 1)])
      column_positions expected_headers = (Some df, [])
    ∧ data df = [blank_row; blank_row].
Proof.
  destruct (left_margin_page_rows
              [mkWord "1" (20 # 1) (100 # 1); mkWord "2" (30 # 1) (131 # 1)])
    as (df & Hdf & _ & Hdata & _).
  - discriminate.
  - repeat constructor.
  - exists df. split; [exact Hdf|]. rewrite Hdata. reflexivity.
Defined.

(** ** What [process_pdf] returns *)

(** Every table the page loop accumulates carries the headers as its
    columns, which is what [pd_concat] relies on. *)
Lemma camelot_tables_columns headers page_no tables st st' r :
  camelot_tables headers page_no tables st = (st', r) →
  Forall (λ d, columns d = headers) st.1 →
  Forall (λ d, columns d = headers) st'.1.
Proof.
  revert st. induction tables as [|t tables IH]; intros st Hrun Hst; simpl in Hrun.
  - by injection Hrun as <- _.
  - case_bool_decide; [|by eapply IH].
    destruct (clean_dataframe _ _) as [df|e] eqn:Hclean; [|by injection Hrun as <- _].
    eapply IH; [exact Hrun|]. destruct (df_empty df); [done|]. simpl.
    apply Forall_app. split; [done|]. constructor; [|constructor].
    by eapply clean_dataframe_columns.
Qed.

Lemma process_page_columns env doc positions headers st page_num :
  Forall (λ d, columns d = headers) st.1 →
  Forall (λ d, columns d = headers)
    (process_page env doc positions headers st page_num).1.
Proof.
  intros Hst.
  assert (∀ st0 : pstate, st0.1 = st.1 →
    Forall (λ d, columns d = headers)
      (camelot_fallback env headers page_num st0).1) as Hfallback.
  { intros st0 Hst0. unfold camelot_fallback.
    destruct (camelot_read_pdf env (page_num + 1)) as [tables|e]; simpl;
      [|by rewrite Hst0].
    destruct (camelot_tables _ _ _ _) as [st' r] eqn:Hrun.
    apply camelot_tables_columns in Hrun; [|simpl; by rewrite Hst0].
    by destruct r as [[]|e]. }
  unfold process_page. destruct (py_index doc page_num) as [page|e]; [|done].
  destruct (extract_page_data_with_pdfplumber page positions headers)
    as [r shown] eqn:Hextract.
  destruct r as [df|]; [|by apply Hfallback].
  destruct (df_empty df); [by apply Hfallback|]. simpl.
  apply Forall_app. split; [done|]. constructor; [|constructor].
  unfold extract_page_data_with_pdfplumber, extract_try in Hextract.
  destruct page as [words|e]; [|done].
  change (Ok words ≫= ?f) with (f words) in Hextract. cbv beta in Hextract.
  destruct (place_words _ _ _ _) as [rows|e]; [|done].
  change (Ok rows ≫= ?f) with (f rows) in Hextract. cbv beta in Hextract.
  destruct (data_rows rows) as [|row rs]; [done|].
  destruct (clean_dataframe _ _) as [out|e] eqn:Hclean; [|done].
  injection Hextract as <- _. by eapply clean_dataframe_columns.
Qed.

Lemma accumulate_columns env doc pages s e :
  Forall (λ d, columns d = expected_headers) (accumulate env doc pages s e).1.
Proof.
  unfold accumulate, process_pages.
  generalize (pages_to_process pages s e (Z.of_nat (length doc))) at 2.
  intros selected.
  assert (∀ st : pstate, Forall (λ d, columns d = expected_headers) st.1 →
    Forall (λ d, columns d = expected_headers)
      (foldl (process_page env doc column_positions expected_headers) st selected).1)
    as Hloop.
  { induction selected as [|p selected IH]; intros st Hst; [done|]. simpl.
    by apply IH, process_page_columns. }
  apply Hloop. constructor.
Qed.

(** With the seven expected headers the final cleaning raises nothing. *)
Lemma clean_dataframe_expected_ok (d : DataFrame) :
  ∃ out, clean_dataframe (Some d) expected_headers = Ok out.
Proof.
  unfold clean_dataframe. destruct (df_empty d); by eexists.
Qed.

(** C10.  [process_pdf] returns [None] when opening the document raises,
    when the run raises after the page loop (here: writing the spreadsheet),
    and when the page loop ends with [all_data] empty.  The value returned
    is the same [None] in all three cases; only the messages shown differ.
    A document that cannot be opened and a document of one page without
    words, for which Camelot finds nothing either, both give [None]. *)
Theorem process_pdf_none_ambiguous :
  (∀ env e pages s t,
     pdf_open env = Raised e →
     process_pdf env pages s t = (None, [ErrorFatal e]))
  ∧ (∀ env doc e pages s t,
       pdf_open env = Ok doc →
       (accumulate env doc pages s t).1 ≠ [] →
       (∀ df, to_excel env df = Raised e) →
       process_pdf env pages s t
       = (None, (accumulate env doc pages s t).2 ++ [ErrorFatal e]))
  ∧ (∀ env doc pages s t,
       pdf_open env = Ok doc →
       (accumulate env doc pages s t).1 = [] →
       process_pdf env pages s t
       = (None, (accumulate env doc pages s t).2 ++ [WarningNoData]))
  ∧ (let env_error := mkEnv (Raised ExternalError) (λ _, Ok []) (λ _, Ok ()) in
     let env_empty := mkEnv (Ok [Ok []]) (λ _, Ok []) (λ _, Ok ()) in
     (process_pdf env_error PagesAll None None).1 = None
     ∧ (process_pdf env_empty PagesAll None None).1 = None
     ∧ (process_pdf env_error PagesAll None None).2 = [ErrorFatal ExternalError]
     ∧ (process_pdf env_empty PagesAll None None).2
       = [InfoTotalPages 1; InfoProcessingPages [1]; InfoAttemptPdfplumber 1;
          InfoAttemptCamelot 1; WarningNoData]).
Proof.
  split; [|split; [|split]].
  - intros env e pages s t Hopen. unfold process_pdf. by rewrite Hopen.
  - intros env doc e pages s t Hopen Hdata Hexcel.
    unfold process_pdf. rewrite Hopen.
    destruct (accumulate env doc pages s t) as [all_data shown]. simpl in *.
    destruct all_data as [|d ds]; [done|].
    destruct (clean_dataframe_expected_ok (pd_concat (d :: ds))) as [out ->].
    change (Ok out ≫= ?f) with (f out). cbv beta. by rewrite Hexcel.
  - intros env doc pages s t Hopen Hdata.
    unfold process_pdf. rewrite Hopen.
    destruct (accumulate env doc pages s t) as [all_data shown]. simpl in *.
    by rewrite Hdata.
  - by vm_compute.
Qed.

Lemma process_pdf_none_ambiguous_witness :
  let env := mkEnv (Ok [Ok [mkWord "x" (40 # 1) (100 # 1)]]) (λ _, Ok [])
               (λ _, Raised ExternalError) in
  (process_pdf env PagesAll None None).1 = None.
Proof.
  intros env.
  destruct process_pdf_none_ambiguous as (_ & Hexcel & _).
  rewrite (Hexcel env [Ok [mkWord "x" (40 # 1) (100 # 1)]] ExternalError
             PagesAll None None); [reflexivity | reflexivity | by vm_compute | done].
Defined.

(** * Further properties of the code *)

(** ** Rounding to a row key *)

(** [round_half_even] is within a half of its argument, and on a tie its
    value is even. *)
Lemma round_half_even_spec (n : Z) (d : positive) :
  let r := round_half_even (n # d) in
  - Z.pos d ≤ 2 * (n - r * Z.pos d) ≤ Z.pos d
  ∧ (2 * (n - r * Z.pos d) = Z.pos d ∨ 2 * (n - r * Z.pos d) = - Z.pos d →
     Z.even r = true).
Proof.
  unfold round_half_even. simpl.
  pose proof (Z.div_mod n (Z.pos d) ltac:(lia)) as Hdm.
  pose proof (Z.mod_pos_bound n (Z.pos d) ltac:(lia)) as Hm.
  set (f := n / Z.pos d) in *. set (m := n mod Z.pos d) in *.
  destruct (Z.compare_spec (2 * m) (Z.pos d)) as [He|Hl|Hg].
  - destruct (Z.even f) eqn:Hf.
    + split; [nia|]. done.
    + split; [nia|]. intros _. rewrite Z.even_add, Hf. done.
  - split; [nia|]. intros [H|H]; nia.
  - split; [nia|]. intros [H|H]; nia.
Qed.

Lemma round_half_even_mono (n1 n2 : Z) (d1 d2 : positive) :
  n1 * Z.pos d2 ≤ n2 * Z.pos d1 →
  round_half_even (n1 # d1) ≤ round_half_even (n2 # d2).
Proof.
  intros Hle.
  destruct (round_half_even_spec n1 d1) as [[Hlo1 Hhi1] He1].
  destruct (round_half_even_spec n2 d2) as [[Hlo2 Hhi2] He2].
  set (r1 := round_half_even (n1 # d1)) in *.
  set (r2 := round_half_even (n2 # d2)) in *.
  destruct (Z_le_gt_dec r1 r2) as [|Hgt]; [done|exfalso].
  assert ((2 * r1 - 1) * (Z.pos d1 * Z.pos d2) ≤ 2 * (n1 * Z.pos d2)) as HA.
  { replace ((2 * r1 - 1) * (Z.pos d1 * Z.pos d2))
      with (((2 * r1 - 1) * Z.pos d1) * Z.pos d2) by ring.
    replace (2 * (n1 * Z.pos d2)) with ((2 * n1) * Z.pos d2) by ring.
    apply Z.mul_le_mono_nonneg_r; lia. }
  assert (2 * (n2 * Z.pos d1) ≤ (2 * r2 + 1) * (Z.pos d1 * Z.pos d2)) as HB.
  { replace ((2 * r2 + 1) * (Z.pos d1 * Z.pos d2))
      with (((2 * r2 + 1) * Z.pos d2) * Z.pos d1) by ring.
    replace (2 * (n2 * Z.pos d1)) with ((2 * n2) * Z.pos d1) by ring.
    apply Z.mul_le_mono_nonneg_r; lia. }
  assert (r1 = r2 + 1) as Hr.
  { assert ((2 * r1 - 1) * (Z.pos d1 * Z.pos d2)
            ≤ (2 * r2 + 1) * (Z.pos d1 * Z.pos d2)) as HC by lia.
    apply Z.mul_le_mono_pos_r in HC; lia. }
  assert (2 * (n1 - r1 * Z.pos d1) = - Z.pos d1) as Ht1.
  { apply (Z.mul_cancel_r _ _ (Z.pos d2)); [lia|]. rewrite Hr in *. lia. }
  assert (2 * (n2 - r2 * Z.pos d2) = Z.pos d2) as Ht2.
  { apply (Z.mul_cancel_r _ _ (Z.pos d1)); [lia|]. rewrite Hr in *. lia. }
  specialize (He1 (or_intror Ht1)). specialize (He2 (or_introl Ht2)).
  rewrite Hr, Z.even_add, He2 in He1. done.
Qed.

Lemma row_key_spec (a : Z) (b : positive) :
  let k := row_key (a # b) in
  (10 | k) ∧ (k - 5) * Z.pos b ≤ a ≤ (k + 5) * Z.pos b.
Proof.
  unfold row_key, Qdiv, Qmult, Qinv. simpl.
  destruct (round_half_even_spec (a * 1) (b * 10)) as [[Hlo Hhi] _].
  set (r := round_half_even (a * 1 # b * 10)) in *.
  split; [by exists r; ring|].
  rewrite Pos2Z.inj_mul in Hlo, Hhi. lia.
Qed.

Lemma row_key_mono (y1 y2 : Q) : (y1 <= y2)%Q → row_key y1 ≤ row_key y2.
Proof.
  destruct y1 as [a1 b1], y2 as [a2 b2]. unfold Qle. simpl. intros Hle.
  unfold row_key, Qdiv, Qmult, Qinv. simpl.
  apply Z.mul_le_mono_nonneg_l; [lia|].
  apply round_half_even_mono. rewrite !Pos2Z.inj_mul. lia.
Qed.

(** X1.  The row key of a word is a multiple of ten at most five away from
    its [top]. *)
Theorem row_key_nearest (y : Q) :
  (10 | row_key y)
  ∧ (inject_Z (row_key y) - 5 <= y)%Q ∧ (y <= inject_Z (row_key y) + 5)%Q.
Proof.
  destruct y as [a b]. destruct (row_key_spec a b) as (Hdiv & Hlo & Hhi).
  split; [exact Hdiv|].
  unfold Qle, Qminus, Qplus, Qopp, inject_Z. simpl. lia.
Qed.

(** X2.  The row key grows with [top]: a word that is not lower on the page
    than another never gets a larger row key, and two numbers that denote
    the same [top] get the same row key. *)
Theorem row_key_monotone (y1 y2 : Q) :
  (y1 <= y2)%Q →
  row_key y1 ≤ row_key y2 ∧ ((y2 <= y1)%Q → row_key y1 = row_key y2).
Proof.
  intros Hle. pose proof (row_key_mono y1 y2 Hle) as H12.
  split; [exact H12|]. intros Hge.
  pose proof (row_key_mono y2 y1 Hge) as H21. lia.
Qed.

Lemma row_key_monotone_witness :
  row_key (1049 # 10) ≤ row_key (105 # 1)
  ∧ row_key (200 # 2) = row_key (100 # 1).
Proof.
  split.
  - apply (row_key_monotone (1049 # 10) (105 # 1)). discriminate.
  - apply (row_key_monotone (200 # 2) (100 # 1)); discriminate.
Defined.

(** X3.  Two words share a row key only when their [top]s are at most ten
    apart. *)
Theorem row_key_shared_within_ten (y1 y2 : Q) :
  row_key y1 = row_key y2 → (y1 - y2 <= 10)%Q ∧ (y2 - y1 <= 10)%Q.
Proof.
  destruct y1 as [a1 b1], y2 as [a2 b2]. intros Hkey.
  destruct (row_key_spec a1 b1) as (_ & Hlo1 & Hhi1).
  destruct (row_key_spec a2 b2) as (_ & Hlo2 & Hhi2).
  cbv zeta in *. rewrite Hkey in *.
  set (k := row_key (a2 # b2)) in *.
  unfold Qle, Qminus, Qplus, Qopp. simpl. rewrite !Pos2Z.inj_mul.
  split; nia.
Qed.

Lemma row_key_shared_within_ten_witness :
  ((96 # 1) - (104 # 1) <= 10)%Q ∧ ((104 # 1) - (96 # 1) <= 10)%Q.
Proof.
  apply (row_key_shared_within_ten (96 # 1) (104 # 1)). reflexivity.
Defined.

(** ** Columns, whatever the order of the positions *)

Lemma find_column_None (cp : list Q) (x : Q) :
  find_column cp x = None ↔ Forall (λ s, (x < s)%Q) cp.
Proof.
  unfold find_column. rewrite fmap_None, list_find_None. split.
  - induction cp as [|a cp IH]; [constructor|].
    rewrite column_intervals_cons. intros Hnone.
    apply Forall_cons in Hnone as [Ha Hrest]. specialize (IH Hrest).
    constructor; [|exact IH].
    destruct (Qlt_le_dec x a) as [|Hax]; [done|exfalso]. apply Ha.
    apply in_interval_spec. split; [done|]. intros e He.
    destruct cp as [|b cp]; [done|]. injection He as <-.
    by apply Forall_cons in IH as [Hb _].
  - intros Hleft. apply Forall_forall. intros [s e] Hse Hin.
    apply list_elem_of_lookup_1 in Hse as [i Hi].
    rewrite column_intervals_lookup, fmap_Some in Hi.
    destruct Hi as (s' & Hs' & [= <- _]).
    apply in_interval_spec in Hin as [Hsx _].
    rewrite Forall_forall in Hleft.
    apply (Qlt_irrefl x). eapply Qlt_le_trans; [|exact Hsx].
    apply Hleft. by eapply list_elem_of_lookup_2.
Qed.

(** X4.  The scan over the columns stops at the first interval that holds
    [x0], also when the positions do not increase: the column of a word is
    [i] exactly when interval [i] holds its [x0] and every earlier interval
    that starts at or before [x0] also ends at or before it. *)
Theorem first_matching_column_wins (cp : list Q) (x : Q) (i : nat) :
  find_column cp x = Some i ↔
  (∃ s, cp !! i = Some s ∧ (s <= x)%Q ∧ ∀ e, cp !! S i = Some e → (x < e)%Q)
  ∧ ∀ (j : nat) s, (j < i)%nat → cp !! j = Some s → (s <= x)%Q →
      ∃ e, cp !! S j = Some e ∧ (e <= x)%Q.
Proof.
  rewrite find_column_Some. split.
  - intros [(s & Hs & Hin) Hbefore]. apply in_interval_spec in Hin. split.
    + by exists s.
    + intros j s' Hj Hs' Hle. specialize (Hbefore j s' Hs' Hj).
      destruct (cp !! S j) as [e|] eqn:He.
      * exists e. split; [done|].
        destruct (Qlt_le_dec x e) as [Hxe|]; [exfalso|done].
        apply Hbefore, in_interval_spec. split; [done|]. by intros e' [= <-].
      * exfalso. apply Hbefore, in_interval_spec. by split.
  - intros [(s & Hs & Hle & Hend) Hbefore]. split.
    + exists s. split; [done|]. by apply in_interval_spec.
    + intros j s' Hs' Hj Hin. apply in_interval_spec in Hin as [Hle' Hend'].
      destruct (Hbefore j s' Hj Hs' Hle') as (e & He & Hex).
      apply (Qlt_irrefl x). eapply Qlt_le_trans; [|exact Hex]. by apply Hend'.
Qed.

(** X5.  A word has no column exactly when its [x0] lies left of every
    column position; the intervals leave no gap to the right of a position.
    With strictly increasing positions this is: left of the first one. *)
Theorem dropped_iff_left_of_all_positions (cp : list Q) (x : Q) :
  (find_column cp x = None ↔ Forall (λ s, (x < s)%Q) cp)
  ∧ (StronglySorted Qlt cp →
     ∀ first, head cp = Some first → (find_column cp x = None ↔ (x < first)%Q)).
Proof.
  split; [apply find_column_None|].
  intros Hsorted first Hfirst. split.
  - intros Hnone. apply find_column_None in Hnone.
    destruct cp as [|a cp]; [done|]. injection Hfirst as <-.
    by apply Forall_cons in Hnone as [Ha _].
  - by apply find_column_below_first.
Qed.

Lemma dropped_iff_left_of_all_positions_witness :
  find_column [0 # 1; 10 # 1; 20 # 1]%Q (-1 # 2)%Q = None.
Proof.
  destruct (dropped_iff_left_of_all_positions [0 # 1; 10 # 1; 20 # 1]%Q (-1 # 2)%Q)
    as [_ Hsorted].
  apply (Hsorted ltac:(repeat constructor) (0 # 1)%Q eq_refl). reflexivity.
Defined.

(** ** The grid in full, and when the scan raises *)

Lemma StronglySorted_le_NoDup_lt (l : list Z) :
  StronglySorted Z.le l → NoDup l → StronglySorted Z.lt l.
Proof.
  induction 1 as [|x l _ IH Hx]; intros Hnd; [constructor|].
  apply NoDup_cons in Hnd as [Hx' Hnd]. constructor; [by apply IH|].
  apply Forall_forall. intros y Hy. rewrite Forall_forall in Hx.
  specialize (Hx y Hy). assert (x ≠ y) by (by intros ->). lia.
Qed.

Lemma sorted_keys_NoDup (rows : gmap Z (list (list string))) :
  NoDup (sorted_keys rows).
Proof. rewrite sorted_keys_perm. apply NoDup_elements. Qed.

Lemma sorted_keys_elem (rows : gmap Z (list (list string))) (rk : Z) :
  rk ∈ sorted_keys rows ↔ is_Some (rows !! rk).
Proof. by rewrite sorted_keys_perm, elem_of_elements, elem_of_dom. Qed.

(** The rows of the grid, read off the words: one row for each row key, in
    ascending order of the keys, with the joined and stripped texts of each
    column. *)
Lemma data_rows_grid (n : nat) (cp : list Q) words rows :
  place_words n cp ∅ words = Ok rows →
  data_rows rows
  = (λ rk, (λ i, strip (join_space (bucket cp words rk i))) <$> seq 0 n)
      <$> sorted_keys rows.
Proof.
  intros Hrun. unfold data_rows. apply list_fmap_ext. intros k rk Hrk.
  apply list_elem_of_lookup_2, sorted_keys_elem in Hrk as [cells Hcells].
  rewrite (lookup_total_correct _ _ _ Hcells).
  rewrite (place_words_grid _ _ _ _ Hrun) in Hcells.
  unfold grid_row in Hcells. case_decide; [|done]. injection Hcells as <-.
  by rewrite <- list_fmap_compose.
Qed.

(** X6.  With no more column positions than headers, the grid of a page has
    one row for each distinct row key of its words, in strictly ascending
    order of the keys; the cell of a row in column [i] is the texts of the
    words with that key and that column, in the order of the words, joined
    by single spaces and stripped. *)
Theorem grid_rows_by_ascending_key (n : nat) (cp : list Q) (words : list word) :
  (length cp ≤ n)%nat →
  ∃ rows,
    place_words n cp ∅ words = Ok rows
    ∧ StronglySorted Z.lt (sorted_keys rows)
    ∧ (∀ rk, rk ∈ sorted_keys rows ↔ rk ∈ keys words)
    ∧ data_rows rows
      = (λ rk, (λ i, strip (join_space
                   (text <$> filter (λ w, row_key (top w) = rk
                                          ∧ find_column cp (x0 w) = Some i) words)))
               <$> seq 0 n)
          <$> sorted_keys rows.
Proof.
  intros Hlen. destruct (place_words_ok n cp words Hlen) as [rows Hrows].
  exists rows. split; [done|]. split; [|split].
  - apply StronglySorted_le_NoDup_lt; [apply sorted_keys_sorted|apply sorted_keys_NoDup].
  - intros rk. rewrite sorted_keys_elem, (place_words_grid _ _ _ _ Hrows).
    unfold grid_row. case_decide; [|by split; [intros [? ?]|]].
    split; [done|]. by eexists.
  - by apply data_rows_grid.
Qed.

Lemma grid_rows_by_ascending_key_witness :
  ∃ rows,
    place_words 2 [0 # 1; 10 # 1]%Q ∅
      [mkWord "b" (11 # 1) (31 # 1); mkWord "a" (1 # 1) (2 # 1)] = Ok rows
    ∧ sorted_keys rows = [0; 30].
Proof.
  destruct (grid_rows_by_ascending_key 2 [0 # 1; 10 # 1]%Q
              [mkWord "b" (11 # 1) (31 # 1); mkWord "a" (1 # 1) (2 # 1)])
    as (rows & Hrows & _); [simpl; lia|].
  exists rows. split; [exact Hrows|].
  vm_compute in Hrows. injection Hrows as <-. by vm_compute.
Defined.

(** The row a word is placed in has as many cells as there are headers. *)
Lemma place_word_row_length (n : nat) (cp : list Q)
    (rows : gmap Z (list (list string))) words (w : word) :
  (∀ rk, rows !! rk = grid_row n cp words rk) →
  ∃ cells : list (list string),
    match rows !! row_key (top w) with
    | Some _ => rows
    | None => <[row_key (top w) := replicate n []]> rows
    end !! row_key (top w) = Some cells
    ∧ length cells = n.
Proof.
  intros Hrows. destruct (rows !! row_key (top w)) as [cells|] eqn:Hc.
  - exists cells. split; [done|].
    rewrite Hrows in Hc. unfold grid_row in Hc. case_decide; [|done].
    injection Hc as <-. by rewrite length_fmap, length_seq.
  - eexists. rewrite lookup_insert_eq. split; [done|]. apply length_replicate.
Qed.

(** Placing a word raises exactly when its column lies beyond the row. *)
Lemma place_word_raises (n : nat) (cp : list Q)
    (rows : gmap Z (list (list string))) words (w : word) e :
  (∀ rk, rows !! rk = grid_row n cp words rk) →
  place_word n cp rows w = Raised e ↔
  e = IndexError ∧ ∃ i, find_column cp (x0 w) = Some i ∧ (n ≤ i)%nat.
Proof.
  intros Hrows. unfold place_word. cbv zeta.
  destruct (place_word_row_length n cp rows words w Hrows) as (cells & Hcells & Hn).
  destruct (find_column cp (x0 w)) as [idx|] eqn:Hcol.
  - rewrite (lookup_total_correct _ _ _ Hcells).
    destruct (cells !! idx) as [c|] eqn:Hc.
    + apply lookup_lt_Some in Hc. split; [done|].
      intros (_ & i & [= <-] & Hi). lia.
    + apply lookup_ge_None in Hc. split.
      * intros [= <-]. split; [done|]. exists idx. split; [done|lia].
      * by intros [-> _].
  - split; [done|]. by intros (_ & i & Hi & _).
Qed.

Lemma place_words_raises (n : nat) (cp : list Q) (words : list word) e :
  place_words n cp ∅ words = Raised e ↔
  e = IndexError
  ∧ Exists (λ w, ∃ i, find_column cp (x0 w) = Some i ∧ (n ≤ i)%nat) words.
Proof.
  revert e. induction words as [|w words IH] using rev_ind; intros e.
  - split; [done|]. intros [_ Hex]. by apply Exists_nil in Hex.
  - rewrite place_words_snoc, Exists_app, Exists_cons, Exists_nil.
    destruct (place_words n cp ∅ words) as [rows|e'] eqn:Hrun.
    + change (Ok rows ≫= ?f) with (f rows). cbv beta.
      rewrite (place_word_raises n cp rows words w e
                 (place_words_grid _ _ _ _ Hrun)).
      split.
      * intros [-> Hw]. split; [done|]. right. by left.
      * intros [-> [Hws|[Hw|[]]]]; [|done].
        assert (Ok rows = Raised IndexError) as Habs; [|done].
        apply IH. by split.
    + change (Raised e' ≫= ?f) with (@Raised (gmap Z (list (list string))) e').
      split.
      * intros [= <-]. destruct (proj1 (IH e') eq_refl) as [-> Hws].
        split; [done|]. by left.
      * intros [-> _]. f_equal. by destruct (proj1 (IH e') eq_refl) as [-> _].
Qed.

(** X7.  The extraction of a page that yields its words reports an error
    exactly when some word falls into a column beyond the last header, which
    needs more column positions than headers; the error is the [IndexError]
    of the missing cell and the result is [None].  Otherwise nothing is
    shown. *)
Theorem extract_error_iff_column_beyond_headers (cp : list Q) (h : list string)
    (words : list word) :
  (extract_page_data_with_pdfplumber (Ok words) cp h
     = (None, [ErrorPdfplumber IndexError])
   ↔ Exists (λ w, ∃ i, find_column cp (x0 w) = Some i ∧ (length h ≤ i)%nat) words)
  ∧ ((extract_page_data_with_pdfplumber (Ok words) cp h).2 = []
     ↔ Forall (λ w, ∀ i, find_column cp (x0 w) = Some i → (i < length h)%nat) words).
Proof.
  pose proof (place_words_raises (length h) cp words) as Hraises.
  unfold extract_page_data_with_pdfplumber.
  destruct (place_words (length h) cp ∅ words) as [rows|e] eqn:Hrun.
  - rewrite (extract_try_rows cp h words rows Hrun).
    assert (∃ r, match data_rows rows with
                 | [] => Ok None
                 | rs => clean_dataframe (Some (frame_of_rows h rs)) h
                         ≫= (λ df, Ok (Some df))
                 end = Ok r) as [r ->].
    { destruct (data_rows rows) as [|r0 rs]; [by eexists|].
      destruct (clean_dataframe_frame_ok h (r0 :: rs)) as [out ->]. by eexists. }
    assert (¬ Exists (λ w, ∃ i, find_column cp (x0 w) = Some i
                             ∧ (length h ≤ i)%nat) words) as Hnone.
    { intros Hex.
      pose proof (proj2 (Hraises IndexError) (conj eq_refl Hex)) as Habs.
      discriminate Habs. }
    split.
    + split; [done|]. intros Hex. by destruct Hnone.
    + split; [|done]. intros _. apply Forall_forall. intros w Hw i Hi.
      destruct (decide (i < length h)%nat) as [|Hge]; [done|].
      destruct Hnone. apply Exists_exists. exists w. split; [done|].
      exists i. split; [done|lia].
  - destruct (proj1 (Hraises e) eq_refl) as [-> Hex].
    unfold extract_try. change (Ok words ≫= ?f) with (f words). cbv beta.
    rewrite Hrun. split.
    + by split.
    + split; [done|]. intros Hall. exfalso.
      apply Exists_exists in Hex as (w & Hw & i & Hi & Hge).
      rewrite Forall_forall in Hall. specialize (Hall w Hw i Hi). lia.
Qed.

(** ** More on [clean_dataframe] *)

(** On a table with columns, and with a first header to compare with, the
    cleaning raises nothing and its rows are the two filters of the rows. *)
Lemma clean_dataframe_data (d : DataFrame) (h0 : string) (hs : list string) :
  columns d ≠ [] →
  ∃ out, clean_dataframe (Some d) (h0 :: hs) = Ok out
         ∧ data out = filter (λ r, ¬ all_na r) (filter (λ r, ¬ first_is h0 r) (data d)).
Proof.
  intros Hcols. destruct (df_empty d) eqn:Hempty.
  - rewrite clean_dataframe_empty by done. eexists. split; [done|].
    unfold df_empty in Hempty. destruct (columns d); [done|].
    by destruct (data d).
  - rewrite clean_dataframe_rows by done. by eexists.
Qed.

(** X8.  [clean_dataframe] raises only in one case: a table with rows and
    columns cleaned against an empty header list, where [expected_headers[0]]
    is an [IndexError].  [None] and tables without rows or columns never
    raise. *)
Theorem clean_dataframe_raises_iff (df : option DataFrame) (headers : list string)
    (e : exn) :
  clean_dataframe df headers = Raised e ↔
  e = IndexError ∧ headers = []
  ∧ ∃ d, df = Some d ∧ columns d ≠ [] ∧ data d ≠ [].
Proof.
  unfold clean_dataframe. destruct df as [d|].
  - unfold df_empty. destruct (columns d) as [|c cs] eqn:Hc.
    + split; [done|]. by intros (_ & _ & d' & [= <-] & Hcols & _).
    + destruct (data d) as [|r rs] eqn:Hd.
      * split; [done|]. by intros (_ & _ & d' & [= <-] & _ & Hdata).
      * destruct headers as [|h0 hs].
        -- split; [|by intros [-> _]]. intros [= <-].
           split; [done|]. split; [done|]. exists d. by rewrite Hc, Hd.
        -- split; [done|]. by intros (_ & ? & _).
  - split; [done|]. by intros (_ & _ & d & ? & _).
Qed.

Lemma clean_dataframe_sublist (d out : DataFrame) (headers : list string) :
  clean_dataframe (Some d) headers = Ok out → data out `sublist_of` data d.
Proof.
  unfold clean_dataframe. intros Hclean.
  destruct (df_empty d); [injection Hclean as <-; apply sublist_nil_l|].
  destruct headers as [|h0 hs]; [done|]. injection Hclean as <-. simpl.
  etransitivity; apply sublist_filter.
Qed.

(** X9.  [clean_dataframe] only removes records: the rows it returns are a
    subsequence of the rows it was given, unchanged and in their order.  A
    rectangular table stays rectangular, and a result with rows has the
    columns of the input. *)
Theorem clean_dataframe_only_removes (d out : DataFrame) (headers : list string) :
  clean_dataframe (Some d) headers = Ok out →
  data out `sublist_of` data d
  ∧ (data out ≠ [] → columns out = columns d)
  ∧ (Forall (λ r, length r = length (columns d)) (data d) →
     Forall (λ r, length r = length (columns out)) (data out)).
Proof.
  intros Hclean. pose proof (clean_dataframe_sublist d out headers Hclean) as Hsub.
  split; [exact Hsub|]. unfold clean_dataframe in Hclean.
  destruct (df_empty d).
  { injection Hclean as <-. simpl. by split. }
  destruct headers as [|h0 hs]; [done|]. injection Hclean as <-. simpl.
  split; [done|].
  intros Hrect. apply Forall_forall. intros r Hr. rewrite Forall_forall in Hrect.
  apply Hrect. by eapply elem_of_sublist.
Qed.

Lemma clean_dataframe_only_removes_witness :
  [[Str "x"; Str "A"]]%string
  `sublist_of` [[Str "x"; Str "A"]; [Str "A"; Str "y"]; [NaN; NaN]]%string.
Proof.
  apply (clean_dataframe_only_removes
    (mkDataFrame ["A"; "B"]%string
       [[Str "x"; Str "A"]; [Str "A"; Str "y"]; [NaN; NaN]]%string)
    (mkDataFrame ["A"; "B"]%string [[Str "x"; Str "A"]]%string)
    ["A"; "B"]%string).
  reflexivity.
Defined.

(** X10.  Cleaning commutes with stacking: with a first header to compare
    with, the rows left of two stacked tables are the rows left of the first
    followed by the rows left of the second. *)
Theorem clean_dataframe_stacked (cols : list string) (rows1 rows2 : list (list cell))
    (h0 : string) (hs : list string) :
  ∃ out out1 out2,
    clean_dataframe (Some (mkDataFrame cols (rows1 ++ rows2))) (h0 :: hs) = Ok out
    ∧ clean_dataframe (Some (mkDataFrame cols rows1)) (h0 :: hs) = Ok out1
    ∧ clean_dataframe (Some (mkDataFrame cols rows2)) (h0 :: hs) = Ok out2
    ∧ data out = data out1 ++ data out2.
Proof.
  destruct cols as [|c cs].
  - exists (mkDataFrame (h0 :: hs) []), (mkDataFrame (h0 :: hs) []),
      (mkDataFrame (h0 :: hs) []).
    by rewrite !clean_dataframe_empty.
  - destruct (clean_dataframe_data (mkDataFrame (c :: cs) (rows1 ++ rows2)) h0 hs)
      as (out & Hout & Hdata); [done|].
    destruct (clean_dataframe_data (mkDataFrame (c :: cs) rows1) h0 hs)
      as (out1 & Hout1 & Hdata1); [done|].
    destruct (clean_dataframe_data (mkDataFrame (c :: cs) rows2) h0 hs)
      as (out2 & Hout2 & Hdata2); [done|].
    exists out, out1, out2. do 3 (split; [done|]).
    rewrite Hdata, Hdata1, Hdata2. simpl. by rewrite !filter_app.
Qed.

(** ** The table of the pdfplumber path *)

Lemma first_is_Str (h0 : string) (row : list string) :
  first_is h0 (Str <$> row) ↔ head row = Some h0.
Proof.
  rewrite first_is_head. destruct row as [|s row]; simpl; [done|].
  split; [by intros [= ->]|by intros [= ->]].
Qed.

Lemma filter_first_is_Str (h0 : string) (l : list (list string)) :
  filter (λ r, ¬ first_is h0 r) ((λ row : list string, Str <$> row) <$> l)
  = (λ row : list string, Str <$> row) <$> filter (λ row, head row ≠ Some h0) l.
Proof.
  induction l as [|row l IH]; [done|].
  rewrite fmap_cons, !filter_cons, IH.
  destruct (decide (head row = Some h0)) as [Hrow|Hrow].
  - rewrite decide_False, decide_False; [done|by intros ?|].
    intros Hn. by apply Hn, first_is_Str.
  - rewrite decide_True, decide_True; [done|done|].
    by rewrite first_is_Str.
Qed.

Lemma data_rows_length (n : nat) (cp : list Q) words rows :
  place_words n cp ∅ words = Ok rows →
  Forall (λ row, length row = n) (data_rows rows).
Proof.
  intros Hrun. rewrite (data_rows_grid n cp words rows Hrun).
  apply Forall_forall. intros row Hrow.
  apply list_elem_of_fmap in Hrow as (rk & -> & _).
  by rewrite length_fmap, length_seq.
Qed.

(** What the extraction returns when it returns a table. *)
Lemma extract_Some (cp : list Q) (h : list string) words df shown :
  extract_page_data_with_pdfplumber (Ok words) cp h = (Some df, shown) →
  shown = []
  ∧ ∃ rows, place_words (length h) cp ∅ words = Ok rows
            ∧ data_rows rows ≠ []
            ∧ clean_dataframe (Some (frame_of_rows h (data_rows rows))) h = Ok df.
Proof.
  unfold extract_page_data_with_pdfplumber. intros Hextract.
  destruct (place_words (length h) cp ∅ words) as [rows|e] eqn:Hrun.
  - rewrite (extract_try_rows cp h words rows Hrun) in Hextract.
    destruct (data_rows rows) as [|r rs] eqn:Hrows; [done|].
    destruct (clean_dataframe _ _) as [out|e] eqn:Hclean; [|done].
    injection Hextract as <- <-. split; [done|]. exists rows.
    by rewrite Hrows.
  - unfold extract_try in Hextract.
    change (Ok words ≫= ?f) with (f words) in Hextract. cbv beta in Hextract.
    by rewrite Hrun in Hextract.
Qed.

(** X11.  A table returned by [extract_page_data_with_pdfplumber] comes with
    no error message, carries the headers as its columns, is rectangular,
    holds strings only (no missing value), and has at most one row for each
    distinct row key of the page. *)
Theorem extracted_table_shape (cp : list Q) (h : list string) (words : list word)
    (df : DataFrame) (shown : list st_msg) :
  extract_page_data_with_pdfplumber (Ok words) cp h = (Some df, shown) →
  shown = []
  ∧ columns df = h
  ∧ Forall (λ r, length r = length h ∧ Forall (λ c, c ≠ NaN) r) (data df)
  ∧ (length (data df) ≤ size (list_to_set (keys words) : gset Z))%nat.
Proof.
  intros Hextract.
  apply extract_Some in Hextract as (-> & rows & Hrun & Hne & Hclean).
  split; [done|]. split; [by eapply clean_dataframe_columns|].
  pose proof (clean_dataframe_sublist _ _ _ Hclean) as Hsub.
  unfold frame_of_rows in Hsub. simpl in Hsub. split.
  - apply Forall_forall. intros r Hr.
    pose proof (elem_of_sublist _ _ _ Hr Hsub) as Hin.
    apply list_elem_of_fmap in Hin as (row & Heq & Hrow). subst r.
    pose proof (data_rows_length _ _ _ _ Hrun) as Hlen.
    rewrite Forall_forall in Hlen. rewrite length_fmap. split; [by apply Hlen|].
    apply Forall_forall. by intros c (s & -> & _)%list_elem_of_fmap.
  - apply sublist_length in Hsub.
    rewrite length_fmap, length_data_rows, (place_words_dom _ _ _ _ Hrun) in Hsub.
    exact Hsub.
Qed.

Lemma extracted_table_shape_witness :
  columns (mkDataFrame ["A"; "B"]%string [[Str "x"; Str EmptyString]]%string)
  = ["A"; "B"]%string.
Proof.
  apply (extracted_table_shape [0 # 1; 10 # 1]%Q ["A"; "B"]%string
           [mkWord "x" (1 # 1) (0 # 1)] _ []).
  by vm_compute.
Defined.

(** X12.  On the pdfplumber path the cleaning removes header rows and
    nothing else: the rows of the returned table are the rows of the grid
    whose first cell is not the first header, in the order of the grid.
    The grid holds strings, so [dropna] finds nothing to remove. *)
Theorem extracted_table_rows (cp : list Q) (h0 : string) (hs : list string)
    (words : list word) (df : DataFrame) (shown : list st_msg) :
  extract_page_data_with_pdfplumber (Ok words) cp (h0 :: hs) = (Some df, shown) →
  ∃ rows,
    place_words (S (length hs)) cp ∅ words = Ok rows
    ∧ data df
      = (λ row : list string, Str <$> row)
          <$> filter (λ row, head row ≠ Some h0) (data_rows rows).
Proof.
  intros Hextract.
  apply extract_Some in Hextract as (_ & rows & Hrun & Hne & Hclean).
  exists rows. split; [exact Hrun|].
  rewrite clean_dataframe_rows in Hclean.
  - injection Hclean as <-. simpl. rewrite filter_first_is_Str.
    apply filter_all, Forall_forall. intros r Hr.
    apply list_elem_of_fmap in Hr as (row & -> & Hrow).
    apply list_elem_of_filter in Hrow as [_ Hrow].
    pose proof (data_rows_length _ _ _ _ Hrun) as Hlen.
    rewrite Forall_forall in Hlen. specialize (Hlen row Hrow).
    destruct row as [|s row]; [done|]. simpl. by intros ?.
  - unfold df_empty, frame_of_rows. simpl. by destruct (data_rows rows).
Qed.

Lemma extracted_table_rows_witness :
  ∃ rows,
    place_words 2 [0 # 1; 10 # 1]%Q ∅
      [mkWord "A" (1 # 1) (0 # 1); mkWord "x" (1 # 1) (20 # 1)] = Ok rows
    ∧ [[Str "x"; Str EmptyString]]%string
      = (λ row : list string, Str <$> row)
          <$> filter (λ row, head row ≠ Some "A"%string) (data_rows rows).
Proof.
  apply (extracted_table_rows [0 # 1; 10 # 1]%Q "A"%string ["B"%string]
           [mkWord "A" (1 # 1) (0 # 1); mkWord "x" (1 # 1) (20 # 1)]
           (mkDataFrame ["A"; "B"]%string [[Str "x"; Str EmptyString]]%string) []).
  by vm_compute.
Defined.

(** ** The Camelot fallback *)

Lemma clean_relabelled (headers : list string) (rows : list (list cell)) :
  clean_dataframe (Some (mkDataFrame headers rows)) headers
  = Ok (mkDataFrame headers (kept_rows headers rows)).
Proof.
  unfold clean_dataframe, df_empty, kept_rows. simpl.
  destruct headers as [|h0 hs]; [done|]. by destruct rows.
Qed.

(** The loop over the Camelot tables of a page, in closed form. *)
Lemma camelot_tables_run (headers : list string) (page_no : Z)
    (tables : list DataFrame) (st : pstate) :
  camelot_tables headers page_no tables st
  = ((st.1 ++ accepted_tables headers tables,
      st.2 ++ replicate (length (accepted_tables headers tables))
                (SuccessCamelot page_no)),
     Ok ()).
Proof.
  revert st. induction tables as [|t tables IH]; intros [all_data shown].
  - simpl. by rewrite !app_nil_r.
  - cbn [camelot_tables accepted_tables omap list_omap]. rewrite clean_relabelled.
    fold (accepted_tables headers tables).
    case_bool_decide as Hcols.
    + assert (df_empty (mkDataFrame headers (kept_rows headers (data t)))
              = bool_decide (kept_rows headers (data t) = [])) as ->.
      { unfold df_empty, kept_rows. simpl. destruct headers as [|h0 hs]; [done|].
        by destruct (filter _ _). }
      case_bool_decide as Hkept.
      * rewrite decide_False by (by intros [_ ?]). apply IH.
      * rewrite decide_True by done. rewrite IH. simpl.
        by rewrite <- !app_assoc.
    + rewrite decide_False by (by intros [? _]). apply IH.
Qed.

Lemma camelot_fallback_run env headers page_num (st : pstate) :
  camelot_fallback env headers page_num st
  = match camelot_read_pdf env (page_num + 1) with
    | Ok tables =>
        (st.1 ++ accepted_tables headers tables,
         st.2 ++ InfoAttemptCamelot (page_num + 1)
              :: replicate (length (accepted_tables headers tables))
                   (SuccessCamelot (page_num + 1)))
    | Raised e =>
        (st.1, st.2 ++ [InfoAttemptCamelot (page_num + 1);
                        ErrorPage (page_num + 1) e])
    end.
Proof.
  unfold camelot_fallback.
  destruct (camelot_read_pdf env (page_num + 1)) as [tables|e].
  - rewrite camelot_tables_run. simpl. by rewrite <- app_assoc.
  - simpl. by rewrite <- app_assoc.
Qed.

(** X13.  The loop over the Camelot tables of a page never raises.  It skips
    the tables with another number of columns than the headers, relabels and
    cleans the others, and appends those that have rows left, in the order
    Camelot gave them, with one success message for each.  So the fallback
    of a page either appends these tables after announcing itself, or, when
    Camelot raises, reports the page and appends nothing. *)
Theorem camelot_fallback_accepts_in_order env (headers : list string)
    (page_num : Z) (tables : list DataFrame) (st : pstate) :
  camelot_tables headers (page_num + 1) tables st
  = ((st.1 ++ accepted_tables headers tables,
      st.2 ++ replicate (length (accepted_tables headers tables))
                (SuccessCamelot (page_num + 1))),
     Ok ())
  ∧ camelot_fallback env headers page_num st
    = match camelot_read_pdf env (page_num + 1) with
      | Ok tables =>
          (st.1 ++ accepted_tables headers tables,
           st.2 ++ InfoAttemptCamelot (page_num + 1)
                :: replicate (length (accepted_tables headers tables))
                     (SuccessCamelot (page_num + 1)))
      | Raised e =>
          (st.1, st.2 ++ [InfoAttemptCamelot (page_num + 1);
                          ErrorPage (page_num + 1) e])
      end.
Proof.
  assert (∀ st0 : pstate,
    camelot_tables headers (page_num + 1) tables st0
    = ((st0.1 ++ accepted_tables headers tables,
        st0.2 ++ replicate (length (accepted_tables headers tables))
                   (SuccessCamelot (page_num + 1))),
       Ok ())) as Hloop.
  { clear st. induction tables as [|t tables IH]; intros [all_data shown].
    - simpl. by rewrite !app_nil_r.
    - cbn [camelot_tables accepted_tables omap list_omap].
      rewrite clean_relabelled. fold (accepted_tables headers tables).
      destruct (decide (length (columns t) = length headers)) as [Hcols|Hcols].
      + rewrite bool_decide_eq_true_2 by done.
        destruct (decide (kept_rows headers (data t) = [])) as [Hkept|Hkept].
        * rewrite decide_False by (by intros [_ ?]). rewrite Hkept.
          assert (df_empty (mkDataFrame headers []) = true) as ->
            by (unfold df_empty; simpl; by destruct headers).
          apply IH.
        * rewrite decide_True by done.
          assert (df_empty (mkDataFrame headers (kept_rows headers (data t)))
                  = false) as ->.
          { unfold df_empty, kept_rows in *. simpl.
            destruct headers as [|h0 hs]; [done|]. by destruct (filter _ _). }
          rewrite IH. simpl. by rewrite <- !app_assoc.
      + rewrite bool_decide_eq_false_2 by done.
        rewrite decide_False by (by intros [? _]). apply IH. }
  split; [apply Hloop|].
  unfold camelot_fallback.
  destruct (camelot_read_pdf env (page_num + 1)) as [answer|e].
  - clear Hloop. rewrite camelot_tables_run. simpl. by rewrite <- app_assoc.
  - simpl. by rewrite <- app_assoc.
Qed.

(** ** Pages are processed independently *)

(** What one page adds to [all_data] and to the messages. *)
Lemma process_page_from_empty env doc positions headers (st : pstate) page_num :
  process_page env doc positions headers st page_num
  = (st.1 ++ (process_page env doc positions headers ([], []) page_num).1,
     st.2 ++ (process_page env doc positions headers ([], []) page_num).2).
Proof.
  unfold process_page.
  destruct (py_index doc page_num) as [page|e]; [|simpl; by rewrite app_nil_r].
  destruct (extract_page_data_with_pdfplumber page positions headers) as [r shown].
  assert (∀ a b : list st_msg,
    camelot_fallback env headers page_num (st.1, (st.2 ++ a) ++ b)
    = (st.1 ++ (camelot_fallback env headers page_num ([], ([] ++ a) ++ b)).1,
       st.2 ++ (camelot_fallback env headers page_num ([], ([] ++ a) ++ b)).2))
    as Hfallback.
  { intros a b. rewrite !camelot_fallback_run.
    destruct (camelot_read_pdf env (page_num + 1)); simpl.
    all: f_equal; rewrite <- ?app_assoc, ?app_nil_r; reflexivity. }
  destruct r as [df|]; [destruct (df_empty df)|]; try apply Hfallback.
  simpl. f_equal. rewrite <- ?app_assoc. reflexivity.
Qed.

Lemma process_pages_from_empty env doc positions headers pages (st : pstate) :
  process_pages env doc positions headers st pages
  = (st.1 ++ concat ((λ p, (process_page env doc positions headers ([], []) p).1)
                       <$> pages),
     st.2 ++ concat ((λ p, (process_page env doc positions headers ([], []) p).2)
                       <$> pages)).
Proof.
  revert st. induction pages as [|p pages IH]; intros st.
  - simpl. rewrite !app_nil_r. by destruct st.
  - change (process_pages env doc positions headers st (p :: pages))
      with (process_pages env doc positions headers
              (process_page env doc positions headers st p) pages).
    rewrite IH, (process_page_from_empty env doc positions headers st p). simpl.
    by rewrite <- !app_assoc.
Qed.

(** X14.  What a page adds to [all_data] and to the messages does not depend
    on the pages before it, and nothing is ever taken away: after the loop
    [all_data] is what it was, followed by the tables of each selected page
    in the order of the selection, and likewise for the messages. *)
Theorem pages_contribute_independently env doc positions headers
    (pages : list Z) (st : pstate) :
  let page_tables p := (process_page env doc positions headers ([], []) p).1 in
  let page_messages p := (process_page env doc positions headers ([], []) p).2 in
  (∀ p, process_page env doc positions headers st p
        = (st.1 ++ page_tables p, st.2 ++ page_messages p))
  ∧ process_pages env doc positions headers st pages
    = (st.1 ++ concat (page_tables <$> pages),
       st.2 ++ concat (page_messages <$> pages)).
Proof.
  intros page_tables page_messages.
  assert (∀ st0 p, process_page env doc positions headers st0 p
                   = (st0.1 ++ page_tables p, st0.2 ++ page_messages p)) as Hpage.
  { intros st0 p. apply process_page_from_empty. }
  split; [apply Hpage|].
  revert st. induction pages as [|p pages IH]; intros st.
  - simpl. rewrite !app_nil_r. by destruct st.
  - change (process_pages env doc positions headers st (p :: pages))
      with (process_pages env doc positions headers
              (process_page env doc positions headers st p) pages).
    rewrite IH, Hpage. simpl. by rewrite <- !app_assoc.
Qed.

(** X15.  When [page.extract_words()] raises, the extraction shows the error
    and returns [None], and the page loop still turns to Camelot: the page
    adds the tables taken from Camelot's answer. *)
Theorem extract_words_failure_falls_back env doc positions headers
    (st : pstate) (page_num : Z) (e : exn) :
  py_index doc page_num = Ok (Raised e) →
  process_page env doc positions headers st page_num
  = camelot_fallback env headers page_num
      (st.1, st.2 ++ [InfoAttemptPdfplumber (page_num + 1); ErrorPdfplumber e])
  ∧ ∀ tables, camelot_read_pdf env (page_num + 1) = Ok tables →
      (process_page env doc positions headers st page_num).1
      = st.1 ++ accepted_tables headers tables.
Proof.
  intros Hpage.
  assert (process_page env doc positions headers st page_num
          = camelot_fallback env headers page_num
              (st.1, st.2 ++ [InfoAttemptPdfplumber (page_num + 1);
                              ErrorPdfplumber e])) as Hrun.
  { rewrite (process_page_fallback env doc positions headers st page_num
               (Raised e) None [ErrorPdfplumber e]); [|done|done|by left].
    by rewrite <- app_assoc. }
  split; [exact Hrun|]. intros tables Htables.
  by rewrite Hrun, camelot_fallback_run, Htables.
Qed.

Lemma extract_words_failure_falls_back_witness :
  let env := mkEnv (Ok [Raised ExternalError])
               (λ _, Ok [mkDataFrame ["a"]%string [[Str "x"]]%string])
               (λ _, Ok ()) in
  (process_page env [Raised ExternalError] [0 # 1]%Q ["H"]%string ([], []) 0).1
  = [mkDataFrame ["H"]%string [[Str "x"]]%string].
Proof.
  intros env.
  destruct (extract_words_failure_falls_back env [Raised ExternalError]
              [0 # 1]%Q ["H"]%string ([], []) 0 ExternalError eq_refl)
    as [_ Htables].
  by rewrite (Htables _ eq_refl).
Defined.

(** ** Which pages are processed *)

(** X16.  With [pages='all'] and at least one of [start_page] and
    [end_page] missing, the bound that is given is ignored: every page of
    the document is selected and entered, in order. *)
Theorem all_pages_when_a_bound_is_missing env doc (start_page end_page : option Z) :
  pdf_open env = Ok doc →
  start_page = None ∨ end_page = None →
  let T := Z.of_nat (length doc) in
  pages_to_process PagesAll start_page end_page T = seqZ 0 T
  ∧ (∀ (k : nat) i, pages_to_process PagesAll start_page end_page T !! k = Some i
                    ↔ i = Z.of_nat k ∧ (k < length doc)%nat)
  ∧ attempted (process_pdf env PagesAll start_page end_page).2 = seqZ 0 T.
Proof.
  intros Hopen Hmissing T.
  assert (pages_to_process PagesAll start_page end_page T = py_range 0 T) as Hsel.
  { simpl. by destruct Hmissing as [-> | ->]; [|destruct start_page]. }
  assert (py_range 0 T = seqZ 0 T) as Hrange.
  { unfold py_range. f_equal. lia. }
  split; [by rewrite Hsel|]. split.
  - intros k i. rewrite Hsel, py_range_lookup. unfold T. lia.
  - rewrite (process_pdf_attempted env doc) by done. fold T.
    by rewrite Hsel.
Qed.

Lemma all_pages_when_a_bound_is_missing_witness :
  let env := mkEnv (Ok [Ok []; Ok []; Ok []]) (λ _, Ok []) (λ _, Ok ()) in
  attempted (process_pdf env PagesAll (Some 3) None).2 = [0; 1; 2].
Proof.
  intros env.
  apply (all_pages_when_a_bound_is_missing env [Ok []; Ok []; Ok []] (Some 3) None
           eq_refl (or_intror eq_refl)).
Defined.

(** X17.  With an explicit page list, the pages with a number between 1 and
    the page count are entered in the caller's order, a page as often as it
    is listed, and each time its tables are appended again. *)
Theorem listed_pages_entered_as_listed env doc (l : list Z)
    (start_page end_page : option Z) :
  pdf_open env = Ok doc →
  let selected :=
    (λ p, p - 1) <$> filter (λ p, 1 ≤ p ≤ Z.of_nat (length doc)) l in
  attempted (process_pdf env (PagesList l) start_page end_page).2 = selected
  ∧ (accumulate env doc (PagesList l) start_page end_page).1
    = concat ((λ p, (process_page env doc column_positions expected_headers
                       ([], []) p).1) <$> selected).
Proof.
  intros Hopen selected.
  assert (pages_to_process (PagesList l) start_page end_page (Z.of_nat (length doc))
          = selected) as Hsel.
  { unfold selected. simpl. f_equal. apply list_filter_iff. intros p. lia. }
  split.
  - by rewrite (process_pdf_attempted env doc), Hsel.
  - unfold accumulate. rewrite Hsel, process_pages_from_empty. done.
Qed.

Lemma listed_pages_entered_as_listed_witness :
  let env := mkEnv (Ok [Ok []; Ok []]) (λ _, Ok []) (λ _, Ok ()) in
  attempted (process_pdf env (PagesList [2; 7; 2; 1]) None None).2 = [1; 1; 0].
Proof.
  intros env.
  apply (listed_pages_entered_as_listed env [Ok []; Ok []] [2; 7; 2; 1] None None
           eq_refl).
Defined.

(** ** The table [process_pdf] returns *)

Lemma relabelled_settled (headers : list string) (rows : list (list cell)) :
  kept_rows headers rows ≠ [] →
  settled headers (mkDataFrame headers (kept_rows headers rows)).
Proof.
  intros Hkept. split; [done|]. split; [done|]. simpl.
  unfold kept_rows in *. destruct headers as [|h0 hs]; [done|].
  apply Forall_forall. intros r Hr.
  apply list_elem_of_filter in Hr as [Hna Hr].
  apply list_elem_of_filter in Hr as [Hfirst _].
  split; [done|]. by intros h0' [= <-].
Qed.

Lemma accepted_tables_settled (headers : list string) (tables : list DataFrame) :
  Forall (settled headers) (accepted_tables headers tables).
Proof.
  apply Forall_forall. intros d Hd.
  apply list_elem_of_omap in Hd as (t & _ & Ht).
  case_decide as Hacc; [|done]. injection Ht as <-.
  apply relabelled_settled. by destruct Hacc.
Qed.

(** Every table a page adds is under the headers, has rows, and has neither
    a header row nor a row of missing values only. *)
Lemma process_page_settled env doc positions headers page_num :
  Forall (settled headers)
    (process_page env doc positions headers ([], []) page_num).1.
Proof.
  assert (∀ st0 : pstate, st0.1 = [] →
    Forall (settled headers) (camelot_fallback env headers page_num st0).1)
    as Hfallback.
  { intros st0 Hst0. rewrite camelot_fallback_run, Hst0.
    destruct (camelot_read_pdf env (page_num + 1)); simpl; [|constructor].
    apply accepted_tables_settled. }
  unfold process_page.
  destruct (py_index doc page_num) as [page|e]; [|constructor].
  destruct (extract_page_data_with_pdfplumber page positions headers)
    as [r shown] eqn:Hextract.
  destruct r as [df|]; [|by apply Hfallback].
  destruct (df_empty df) eqn:Hempty; [by apply Hfallback|]. simpl.
  constructor; [|constructor].
  destruct page as [words|e]; [|done].
  apply extract_Some in Hextract as (_ & rows & _ & _ & Hclean).
  unfold frame_of_rows in Hclean. rewrite clean_relabelled in Hclean.
  injection Hclean as <-. apply relabelled_settled.
  intros Hnil. unfold df_empty in Hempty. simpl in Hempty. rewrite Hnil in Hempty.
  by destruct headers.
Qed.

Lemma accumulate_settled env doc pages s e :
  Forall (settled expected_headers) (accumulate env doc pages s e).1.
Proof.
  unfold accumulate. rewrite process_pages_from_empty. simpl.
  apply Forall_concat, Forall_fmap, Forall_forall. intros p _.
  apply process_page_settled.
Qed.

(** The final cleaning finds the stacked tables as it leaves them. *)
Lemma final_clean_stacked (all_data : list DataFrame) :
  all_data ≠ [] →
  Forall (settled expected_headers) all_data →
  clean_dataframe (Some (pd_concat all_data)) expected_headers
  = Ok (mkDataFrame expected_headers (concat (data <$> all_data))).
Proof.
  intros Hne Hsettled. destruct all_data as [|d ds]; [done|].
  pose proof (Forall_inv Hsettled) as (Hcols & Hdata & _).
  assert (pd_concat (d :: ds)
          = mkDataFrame expected_headers (concat (data <$> d :: ds))) as ->.
  { unfold pd_concat. simpl. by rewrite Hcols. }
  rewrite clean_relabelled. f_equal. f_equal.
  change (kept_rows expected_headers ?rows)
    with (filter (λ r, ¬ all_na r)
            (filter (λ r, ¬ first_is "Receipt No." r) rows)).
  assert (Forall (λ r, ¬ all_na r ∧ ¬ first_is "Receipt No." r)
            (concat (data <$> d :: ds))) as Hrows.
  { apply Forall_concat, Forall_fmap.
    eapply Forall_impl; [exact Hsettled|]. intros d' (_ & _ & Hd'). simpl.
    eapply Forall_impl; [exact Hd'|]. intros r [Hna Hfirst].
    split; [done|]. by apply Hfirst. }
  rewrite (filter_all (λ r, ¬ first_is "Receipt No." r)).
  - apply filter_all. eapply Forall_impl; [exact Hrows|]. by intros r [? _].
  - eapply Forall_impl; [exact Hrows|]. by intros r [_ ?].
Qed.

(** X18.  [process_pdf] returns a table exactly when the document opens,
    the page loop accumulates at least one table and the spreadsheet writer
    accepts the result; the table returned, and written, is then the tables
    of the pages stacked in the order they were accumulated, under the
    seven headers.  The cleaning after the loop removes nothing: every
    accumulated table is already clean. *)
Theorem process_pdf_returns_stacked_tables env (pages : pages_arg)
    (start_page end_page : option Z) (final : DataFrame) :
  (process_pdf env pages start_page end_page).1 = Some final ↔
  ∃ doc,
    pdf_open env = Ok doc
    ∧ (accumulate env doc pages start_page end_page).1 ≠ []
    ∧ final = mkDataFrame expected_headers
                (concat (data <$> (accumulate env doc pages start_page end_page).1))
    ∧ to_excel env final = Ok ().
Proof.
  unfold process_pdf. destruct (pdf_open env) as [doc|e].
  - pose proof (accumulate_settled env doc pages start_page end_page) as Hsettled.
    destruct (accumulate env doc pages start_page end_page)
      as [all_data shown] eqn:Hacc.
    simpl in Hsettled. destruct all_data as [|d ds].
    + simpl. split; [done|]. intros (doc' & [= <-] & Hne & _).
      by rewrite Hacc in Hne.
    + rewrite (final_clean_stacked (d :: ds)) by done.
      set (stacked := mkDataFrame expected_headers (concat (data <$> d :: ds))).
      change (Ok stacked ≫= ?f) with (f stacked). cbv beta.
      destruct (to_excel env stacked) as [[]|e] eqn:Hexcel; simpl.
      * split.
        -- intros [= <-]. exists doc. rewrite Hacc. by rewrite Hexcel.
        -- intros (doc' & [= <-] & _ & -> & _). by rewrite Hacc.
      * split; [done|].
        intros (doc' & [= <-] & _ & -> & Hok). rewrite Hacc in Hok.
        assert (to_excel env stacked = Ok ()) as Hok' by exact Hok.
        by rewrite Hexcel in Hok'.
  - simpl. split; [done|]. by intros (doc & ? & _).
Qed.

Lemma loop_messages_not_fatal (shown : list st_msg) :
  Forall loop_message shown → Forall (λ m, ∀ e, m ≠ ErrorFatal e) shown.
Proof.
  intros Hall. eapply Forall_impl; [exact Hall|].
  intros m Hm e ->. exact Hm.
Qed.

Lemma process_page_messages env doc positions headers page_num :
  Forall loop_message (process_page env doc positions headers ([], []) page_num).2.
Proof.
  assert (∀ st0 : pstate, Forall loop_message st0.2 →
    Forall loop_message (camelot_fallback env headers page_num st0).2)
    as Hfallback.
  { intros st0 Hst0. rewrite camelot_fallback_run.
    destruct (camelot_read_pdf env (page_num + 1)); simpl.
    - apply Forall_app. split; [done|]. constructor; [done|].
      by apply Forall_replicate.
    - apply Forall_app. split; [done|]. by repeat constructor. }
  unfold process_page.
  destruct (py_index doc page_num) as [page|e]; [|by repeat constructor].
  assert (Forall loop_message
            (extract_page_data_with_pdfplumber page positions headers).2) as Hshown.
  { unfold extract_page_data_with_pdfplumber.
    destruct (extract_try page positions headers); by repeat constructor. }
  destruct (extract_page_data_with_pdfplumber page positions headers) as [r shown].
  simpl in Hshown.
  assert (Forall loop_message
            (([] ++ [InfoAttemptPdfplumber (page_num + 1)]) ++ shown)) as Hsofar.
  { apply Forall_app. split; [by repeat constructor|done]. }
  destruct r as [df|]; [destruct (df_empty df)|]; try by apply Hfallback.
  cbn [fst snd]. apply Forall_app. split; [done|]. by repeat constructor.
Qed.

(** X19.  Once the document is open, no failure of a page ends the run: if
    the spreadsheet writer raises nothing, [process_pdf] shows no fatal
    error, whatever pdfplumber and Camelot do on the pages, and it returns
    [None] only together with the no-data warning, when no table was
    accumulated. *)
Theorem page_failures_are_not_fatal env doc (pages : pages_arg)
    (start_page end_page : option Z) :
  pdf_open env = Ok doc →
  (∀ df, to_excel env df = Ok ()) →
  let run := process_pdf env pages start_page end_page in
  Forall (λ m, ∀ e, m ≠ ErrorFatal e) run.2
  ∧ (run.1 = None ↔ (accumulate env doc pages start_page end_page).1 = [])
  ∧ (run.1 = None ↔ WarningNoData ∈ run.2).
Proof.
  intros Hopen Hexcel run.
  assert (Forall (λ m, loop_message m ∨ ∃ n, m = InfoTotalPages n
                       ∨ ∃ l, m = InfoProcessingPages l)
            (accumulate env doc pages start_page end_page).2) as Hshown.
  { unfold accumulate. rewrite process_pages_from_empty. simpl.
    constructor; [right; by eexists; left|].
    constructor; [right; exists 0; right; by eexists|].
    apply Forall_concat, Forall_fmap, Forall_forall. intros p _. simpl.
    eapply Forall_impl; [apply process_page_messages|]. by left. }
  pose proof (accumulate_settled env doc pages start_page end_page) as Hsettled.
  unfold run, process_pdf. rewrite Hopen.
  destruct (accumulate env doc pages start_page end_page) as [all_data shown].
  simpl in *.
  assert (Forall (λ m, ∀ e, m ≠ ErrorFatal e) shown) as Hnofatal.
  { eapply Forall_impl; [exact Hshown|].
    intros m [Hm|[n [->| [l ->]]]] e; [|done..]. intros ->. exact Hm. }
  assert (WarningNoData ∉ shown) as Hnowarn.
  { intros Hin. rewrite Forall_forall in Hshown.
    destruct (Hshown _ Hin) as [[]|[n [?|[l ?]]]]; done. }
  destruct all_data as [|d ds].
  - simpl. split; [|split; [done|]].
    + apply Forall_app. split; [done|]. by repeat constructor.
    + split; [|done]. intros _. apply elem_of_app. right.
      by apply list_elem_of_singleton.
  - rewrite (final_clean_stacked (d :: ds)) by done.
    change (Ok ?x ≫= ?f) with (f x). cbv beta. rewrite Hexcel. simpl.
    split; [done|]. split; [done|]. split; [done|]. intros Hin. by destruct Hnowarn.
Qed.

Lemma page_failures_are_not_fatal_witness :
  let env := mkEnv (Ok [Raised ExternalError; Ok []])
               (λ _, Raised ExternalError) (λ _, Ok ()) in
  Forall (λ m, ∀ e, m ≠ ErrorFatal e) (process_pdf env PagesAll None None).2.
Proof.
  intros env.
  apply (page_failures_are_not_fatal env [Raised ExternalError; Ok []]
           PagesAll None None eq_refl (λ _, eq_refl)).
Defined.

(** ** The application *)

Lemma process_messages_app (a b : list main_msg) :
  process_messages (a ++ b) = process_messages a ++ process_messages b.
Proof. apply omap_app. Qed.

Lemma process_messages_from (msgs : list st_msg) :
  process_messages (FromProcess <$> msgs) = msgs.
Proof.
  induction msgs as [|m msgs IH]; [done|].
  change (process_messages (FromProcess <$> m :: msgs))
    with (m :: process_messages (FromProcess <$> msgs)).
  by rewrite IH.
Qed.

(** Once the button is clicked on a valid selection, what [main] shows of
    [process_pdf] is what the call it makes shows. *)
Lemma main_runs_process env menv u files c pages s e :
  uploaded_file u = Some c →
  write_temp menv = Ok () →
  page_selection menv u = Some (pages, s, e) →
  convert_clicked u = true →
  process_messages (displayed (main env menv u files))
  = (call_process_pdf env u pages s e).2.
Proof.
  intros Hup Hwrite Hsel Hclick. unfold main.
  rewrite Hup, Hwrite, Hsel, Hclick. cbn [negb].
  set (run := call_process_pdf env u pages s e).
  assert (process_messages ([Title; SuccessUploaded] ++ (FromProcess <$> run.2))
          = run.2) as Hshown.
  { rewrite process_messages_app, process_messages_from. done. }
  destruct (run.1) as [written|]; cbn [displayed].
  - destruct (read_excel menv written) as [df|err]; [|done].
    destruct (balance_column df) as [j|]; [|done].
    destruct (filtered_to_excel menv (filter_balance j df)) as [[]|err]; [|done].
    cbn [displayed]. rewrite process_messages_app, Hshown. simpl. apply app_nil_r.
  - rewrite process_messages_app, Hshown. simpl. apply app_nil_r.
Qed.

(** X20.  In the "Specific Pages" mode an empty text field leaves [pages] at
    ['all']: after the click [main] runs [process_pdf] on the whole
    document, and every page is entered, in order. *)
Theorem empty_page_text_processes_all_pages env menv (u : ui)
    (files : gset string) (c : string) doc :
  uploaded_file u = Some c →
  write_temp menv = Ok () →
  process_all_pages u = false →
  page_option_chosen u = SpecificPages →
  specific_pages u = EmptyString →
  convert_clicked u = true →
  pdf_open env = Ok doc →
  process_messages (displayed (main env menv u files))
  = (process_pdf env PagesAll None None).2
  ∧ attempted (process_messages (displayed (main env menv u files)))
    = seqZ 0 (Z.of_nat (length doc)).
Proof.
  intros Hup Hwrite Hall Hmode Htext Hclick Hopen.
  assert (page_selection menv u = Some (PagesAll, None, None)) as Hsel.
  { unfold page_selection. by rewrite Hall, Hmode, Htext. }
  rewrite (main_runs_process env menv u files c _ _ _ Hup Hwrite Hsel Hclick).
  unfold call_process_pdf. rewrite Hall. simpl. split; [done|].
  rewrite (process_pdf_attempted env doc) by done.
  unfold pages_to_process, py_range. f_equal. lia.
Qed.

Lemma empty_page_text_processes_all_pages_witness :
  let env := mkEnv (Ok [Ok []; Ok []]) (λ _, Ok []) (λ _, Ok ()) in
  let menv := mkMainEnv (λ _, None) (Ok ()) (λ d, Ok d) (λ _, Ok ()) false in
  let u := mkUi (Some "pdf"%string) false SpecificPages 1 1 EmptyString true in
  attempted (process_messages (displayed (main env menv u ∅))) = [0; 1].
Proof.
  intros env menv u.
  apply (empty_page_text_processes_all_pages env menv u ∅ "pdf"%string
           [Ok []; Ok []]); reflexivity.
Defined.

(** X21.  In the "Range" mode, where the widgets keep
    [1 <= start <= end], [main] after the click runs [process_pdf] with
    both bounds, and the pages entered are [start - 1], ...,
    [min(end, T) - 1]; none at all when [start] exceeds the page count. *)
Theorem range_mode_processes_the_range env menv (u : ui) (files : gset string)
    (c : string) doc :
  uploaded_file u = Some c →
  write_temp menv = Ok () →
  process_all_pages u = false →
  page_option_chosen u = Range →
  1 ≤ start_page_input u ≤ end_page_input u →
  convert_clicked u = true →
  pdf_open env = Ok doc →
  let T := Z.of_nat (length doc) in
  process_messages (displayed (main env menv u files))
  = (process_pdf env PagesAll (Some (start_page_input u))
       (Some (end_page_input u))).2
  ∧ attempted (process_messages (displayed (main env menv u files)))
    = py_range (start_page_input u - 1) (Z.min (end_page_input u) T)
  ∧ (T < start_page_input u →
     attempted (process_messages (displayed (main env menv u files))) = []).
Proof.
  intros Hup Hwrite Hall Hmode Hbounds Hclick Hopen T.
  assert (page_selection menv u
          = Some (PagesAll, Some (start_page_input u), Some (end_page_input u)))
    as Hsel.
  { unfold page_selection. by rewrite Hall, Hmode. }
  rewrite (main_runs_process env menv u files c _ _ _ Hup Hwrite Hsel Hclick).
  unfold call_process_pdf. rewrite Hall.
  assert (both_truthy (Some (start_page_input u)) (Some (end_page_input u)) = true)
    as ->.
  { unfold both_truthy. apply andb_true_intro.
    split; apply negb_true_iff, Z.eqb_neq; lia. }
  split; [done|].
  rewrite (process_pdf_attempted env doc) by done. fold T.
  assert (pages_to_process PagesAll (Some (start_page_input u))
            (Some (end_page_input u)) T
          = py_range (start_page_input u - 1) (Z.min (end_page_input u) T)) as ->.
  { simpl. f_equal. lia. }
  split; [done|]. intros Hbeyond. apply py_range_empty. lia.
Qed.

Lemma range_mode_processes_the_range_witness :
  let env := mkEnv (Ok [Ok []; Ok []; Ok []]) (λ _, Ok []) (λ _, Ok ()) in
  let menv := mkMainEnv (λ _, None) (Ok ()) (λ d, Ok d) (λ _, Ok ()) false in
  let u := mkUi (Some "pdf"%string) false Range 2 5 EmptyString true in
  attempted (process_messages (displayed (main env menv u ∅))) = [1; 2].
Proof.
  intros env menv u.
  assert (1 ≤ start_page_input u ≤ end_page_input u) as Hbounds by (simpl; lia).
  destruct (range_mode_processes_the_range env menv u ∅ "pdf"%string
              [Ok []; Ok []; Ok []] eq_refl eq_refl eq_refl eq_refl Hbounds
              eq_refl eq_refl) as (_ & Hentered & _).
  rewrite Hentered. reflexivity.
Defined.

(** X22.  A page list is all or nothing.  When every item of the text parses
    as an integer, [main] passes the integers on as the page list, in the
    order of the text; when one item does not, [main] shows "Please enter
    valid page numbers." and returns, clicked or not, without running
    [process_pdf], and [temp.pdf] stays in the working directory. *)
Theorem page_text_is_all_or_nothing env menv (u : ui) (files : gset string)
    (c : string) :
  uploaded_file u = Some c →
  write_temp menv = Ok () →
  process_all_pages u = false →
  page_option_chosen u = SpecificPages →
  specific_pages u ≠ EmptyString →
  (∀ l, Forall2 (λ p n, py_int menv (strip p) = Some n)
          (split_comma (specific_pages u)) l →
        page_selection menv u = Some (PagesList l, None, None))
  ∧ (Exists (λ p, py_int menv (strip p) = None) (split_comma (specific_pages u)) →
     main env menv u files
     = mkRun [Title; SuccessUploaded; ErrorInvalidPages]
         ({["temp.pdf"%string]} ∪ files) Returned).
Proof.
  intros Hup Hwrite Hall Hmode Htext.
  assert (page_selection menv u
          = match parse_pages menv (specific_pages u) with
            | Some l => Some (PagesList l, None, None)
            | None => None
            end) as Hsel.
  { unfold page_selection. rewrite Hall, Hmode.
    by destruct (specific_pages u). }
  split.
  - intros l Hl. rewrite Hsel. unfold parse_pages.
    by rewrite (mapM_Some_2 _ _ _ Hl).
  - intros Hbad. unfold main. rewrite Hup, Hwrite, Hsel. unfold parse_pages.
    by rewrite (mapM_None_2 _ _ Hbad).
Qed.

Lemma page_text_is_all_or_nothing_witness :
  let env := mkEnv (Ok [Ok []]) (λ _, Ok []) (λ _, Ok ()) in
  let menv := mkMainEnv (λ s, if decide (s = "1"%string) then Some 1 else None)
                (Ok ()) (λ d, Ok d) (λ _, Ok ()) false in
  let u := mkUi (Some "pdf"%string) false SpecificPages 1 1 "1, x"%string true in
  displayed (main env menv u ∅) = [Title; SuccessUploaded; ErrorInvalidPages].
Proof.
  intros env menv u.
  assert (specific_pages u ≠ EmptyString) as Htext by discriminate.
  destruct (page_text_is_all_or_nothing env menv u ∅ "pdf"%string
              eq_refl eq_refl eq_refl eq_refl Htext) as [_ Hbad].
  rewrite Hbad; [reflexivity|].
  apply Exists_cons_tl, Exists_cons_hd. reflexivity.
Defined.

Lemma no_download_from_process (msgs : list st_msg) (d : DataFrame) :
  DownloadButton d ∉ (FromProcess <$> msgs).
Proof. by intros (m & ? & _)%list_elem_of_fmap. Qed.

Lemma files_after_process_grows env menv run (files : gset string) :
  files ⊆ files_after_process env menv run files.
Proof.
  unfold files_after_process.
  destruct run.1; [apply union_subseteq_r|].
  destruct (last run.2) as [[]|]; try done.
  destruct (pdf_open env); [|done].
  destruct (failed_write_leaves_file menv); [apply union_subseteq_r|done].
Qed.

Lemma temp_file_in (files : gset string) :
  "temp.pdf"%string ∈ ({["temp.pdf"%string]} ∪ files : gset string).
Proof. apply elem_of_union. left. by apply elem_of_singleton. Qed.

Lemma temp_file_temporary : "temp.pdf"%string ∈ temporary_files.
Proof.
  unfold temporary_files. rewrite !elem_of_union, !elem_of_singleton. auto.
Qed.

(** The one way in which [main] comes to show the download button. *)
Lemma main_download_inv env menv (u : ui) (files : gset string) (d : DataFrame) :
  DownloadButton d ∈ displayed (main env menv u files) →
  ∃ pages s e written back j,
    page_selection menv u = Some (pages, s, e)
    ∧ (call_process_pdf env u pages s e).1 = Some written
    ∧ read_excel menv written = Ok back
    ∧ balance_column back = Some j
    ∧ d = filter_balance j back
    ∧ main env menv u files
      = mkRun (([Title; SuccessUploaded]
                ++ (FromProcess <$> (call_process_pdf env u pages s e).2))
               ++ [WritePreviewCaption; WritePreview (df_head d); DownloadButton d])
          (({["clean.xlsx"%string]}
            ∪ files_after_process env menv (call_process_pdf env u pages s e)
                ({["temp.pdf"%string]} ∪ files))
           ∖ temporary_files)
          Returned.
Proof.
  unfold main.
  assert (∀ msgs : list st_msg,
    DownloadButton d ∉ [Title; SuccessUploaded] ++ (FromProcess <$> msgs))
    as Hshown.
  { intros msgs [Hin|Hin]%elem_of_app.
    - by repeat (apply elem_of_cons in Hin as [?|Hin]; [done|]);
        apply elem_of_nil in Hin.
    - by apply no_download_from_process in Hin. }
  assert (∀ l : list main_msg, l = [Title] ∨ l = [Title; SuccessUploaded]
            ∨ l = [Title; SuccessUploaded; ErrorInvalidPages] →
            DownloadButton d ∉ l) as Hshort.
  { intros l [->|[->| ->]] Hin;
      by repeat (apply elem_of_cons in Hin as [?|Hin]; [done|]);
        apply elem_of_nil in Hin. }
  destruct (uploaded_file u) as [c|];
    [|intros Hin; by eapply Hshort in Hin; eauto].
  destruct (write_temp menv) as [[]|err];
    [|intros Hin; by eapply Hshort in Hin; eauto].
  destruct (page_selection menv u) as [[[pages s] e]|];
    [|intros Hin; by eapply Hshort in Hin; eauto].
  destruct (convert_clicked u); cbn [negb];
    [|intros Hin; by eapply Hshort in Hin; eauto].
  set (run := call_process_pdf env u pages s e).
  destruct (run.1) as [written|] eqn:Hrun; cbn [displayed].
  - destruct (read_excel menv written) as [back|err] eqn:Hback;
      [|intros Hin; by apply Hshown in Hin].
    destruct (balance_column back) as [j|] eqn:Hj;
      [|intros Hin; by apply Hshown in Hin].
    destruct (filtered_to_excel menv (filter_balance j back)) as [[]|err];
      [|intros Hin; by apply Hshown in Hin].
    cbn [displayed]. intros [Hin|Hin]%elem_of_app; [by apply Hshown in Hin|].
    repeat (apply elem_of_cons in Hin as [Heq|Hin]; [try done|]);
      [|by apply elem_of_nil in Hin].
    injection Heq as ->. exists pages, s, e, written, back, j. done.
  - intros [Hin|Hin]%elem_of_app; [by apply Hshown in Hin|].
    apply list_elem_of_singleton in Hin. done.
Qed.

(** X23.  Once the upload is written to [temp.pdf], the file is removed only
    by a run that reaches the download button; that run leaves none of
    [temp.pdf], [converted_data.xlsx] and [clean.xlsx] behind.  Every other
    run, whether it stops at the page list, waits for the click, finds
    nothing to extract or meets an exception, leaves [temp.pdf] in the
    working directory. *)
Theorem temp_file_removed_only_at_the_end env menv (u : ui)
    (files : gset string) (c : string) :
  uploaded_file u = Some c →
  write_temp menv = Ok () →
  let run := main env menv u files in
  ("temp.pdf"%string ∈ files_left run ↔ ∀ d, DownloadButton d ∉ displayed run)
  ∧ ((∃ d, DownloadButton d ∈ displayed run) →
     ended run = Returned ∧ ∀ f, f ∈ temporary_files → f ∉ files_left run).
Proof.
  intros Hup Hwrite run.
  assert ((∃ d, DownloadButton d ∈ displayed run) →
          ended run = Returned ∧ ∀ f, f ∈ temporary_files → f ∉ files_left run)
    as Hdone.
  { intros [d Hd]. apply main_download_inv in Hd
      as (pages & s & e & written & back & j & _ & _ & _ & _ & _ & Hrun).
    unfold run. rewrite Hrun. simpl. split; [done|].
    intros f Hf Hin. by apply elem_of_difference in Hin as [_ Hn]. }
  split; [|exact Hdone]. split.
  - intros Htemp d Hd. destruct Hdone as [_ Hgone]; [by exists d|].
    apply (Hgone "temp.pdf"%string); [|done]. apply temp_file_temporary.
  - intros Hnone. unfold run, main in *. rewrite Hup, Hwrite in *.
    destruct (page_selection menv u) as [[[pages s] e]|];
      [|simpl; apply temp_file_in].
    destruct (convert_clicked u); cbn [negb] in *; [|simpl; apply temp_file_in].
    pose proof (files_after_process_grows env menv
      (call_process_pdf env u pages s e) ({["temp.pdf"%string]} ∪ files)) as Hgrow.
    pose proof (Hgrow _ (temp_file_in files)) as Htemp.
    destruct ((call_process_pdf env u pages s e).1) as [written|];
      [|exact Htemp].
    destruct (read_excel menv written) as [back|err]; [|exact Htemp].
    destruct (balance_column back) as [j|]; [|exact Htemp].
    destruct (filtered_to_excel menv (filter_balance j back)) as [[]|err].
    + exfalso. apply (Hnone (filter_balance j back)). cbn [displayed].
      apply elem_of_app. right.
      apply elem_of_cons. right. apply elem_of_cons. right.
      by apply list_elem_of_singleton.
    + simpl. destruct (failed_write_leaves_file menv); [|exact Htemp].
      apply elem_of_union. by right.
Qed.

Lemma temp_file_removed_only_at_the_end_witness :
  let env := mkEnv (Ok [Ok []]) (λ _, Ok []) (λ _, Ok ()) in
  let menv := mkMainEnv (λ _, None) (Ok ()) (λ d, Ok d) (λ _, Ok ()) false in
  let u := mkUi (Some "pdf"%string) true Range 1 1 EmptyString true in
  "temp.pdf"%string ∈ files_left (main env menv u ∅).
Proof.
  intros env menv u.
  destruct (temp_file_removed_only_at_the_end env menv u ∅ "pdf"%string
              eq_refl eq_refl) as [Hleft _].
  apply Hleft. intros d Hd. vm_compute in Hd.
  repeat (apply elem_of_cons in Hd as [Hd|Hd]; [done|]).
  by apply elem_of_nil in Hd.
Defined.

(** X24.  Every row of the table that [main] offers for download has a
    value in the [Balance] column of the table read back from the
    spreadsheet; the rows are rows of that table, in its order and under
    its columns, and the preview shows the first five of them. *)
Theorem download_rows_have_a_balance env menv (u : ui) (files : gset string)
    (d : DataFrame) :
  DownloadButton d ∈ displayed (main env menv u files) →
  ∃ written back (j : nat),
    read_excel menv written = Ok back
    ∧ columns back !! j = Some "Balance"%string
    ∧ columns d = columns back
    ∧ data d `sublist_of` data back
    ∧ Forall (λ r, ∃ c, r !! j = Some c ∧ c ≠ NaN) (data d)
    ∧ WritePreview (mkDataFrame (columns d) (take 5 (data d)))
      ∈ displayed (main env menv u files).
Proof.
  intros Hd. apply main_download_inv in Hd
    as (pages & s & e & written & back & j & _ & _ & Hback & Hj & -> & Hrun).
  exists written, back, j. split; [done|]. split.
  { unfold balance_column in Hj. apply fmap_Some in Hj as ([j' label] & Hfind & ->).
    apply list_find_Some in Hfind as (Hlabel & -> & _). done. }
  split; [done|]. split; [apply sublist_filter|]. split.
  - apply Forall_forall. intros r Hr. simpl in Hr.
    apply list_elem_of_filter in Hr as [Hna _]. unfold notna_at in Hna.
    destruct (r !! j) as [cell0|]; [|done]. exists cell0. split; [done|].
    by destruct cell0.
  - rewrite Hrun. cbn [displayed]. apply elem_of_app. right.
    apply elem_of_cons. right. apply elem_of_cons. by left.
Qed.

Lemma download_rows_have_a_balance_witness :
  let env := mkEnv (Ok [Ok [mkWord "x" (600 # 1) (100 # 1)]]) (λ _, Ok [])
               (λ _, Ok ()) in
  let menv := mkMainEnv (λ _, None) (Ok ()) (λ d, Ok d) (λ _, Ok ()) false in
  let u := mkUi (Some "pdf"%string) true Range 1 1 EmptyString true in
  ∃ d, DownloadButton d ∈ displayed (main env menv u ∅)
       ∧ Forall (λ r, ∃ c, r !! 6%nat = Some c ∧ c ≠ NaN) (data d).
Proof.
  intros env menv u.
  set (d := mkDataFrame expected_headers
              [[Str EmptyString; Str EmptyString; Str EmptyString; Str EmptyString;
                Str EmptyString; Str EmptyString; Str "x"]]).
  assert (DownloadButton d ∈ displayed (main env menv u ∅)) as Hd.
  { vm_compute.
    repeat (apply elem_of_cons; first [left; reflexivity | right]). }
  exists d. split; [exact Hd|].
  destruct (download_rows_have_a_balance env menv u ∅ d Hd)
    as (written & back & j & _ & Hj & Hcols & _ & Hrows & _).
  rewrite <- Hcols in Hj. change (columns d) with expected_headers in Hj.
  assert (j = 6%nat) as Hsix; [|by rewrite <- Hsix].
  do 7 (destruct j as [|j]; [try discriminate Hj; try reflexivity|]).
  discriminate Hj.
Defined.
